(** * models/kmlp.py: the frequency-smoothed classifier and the training loops

    A shallow embedding of [DynamicKerasClassifier], [cv_fit] and [fit], and
    of [PandasSelector] and [read_data].

    Numbers.  numpy floats are modelled by [num]: a rational, or one of the
    three IEEE special values.  [fadd], [fmul] and [fdiv] are the exact
    operations (no rounding, no overflow, a single unsigned zero) with the
    IEEE rules for the special values; the classifier is stated over them.
    The accumulation [test_preds += preds / cv.n_splits] of [cv_fit] is
    stated over the float division and addition themselves, which are
    parameters [float_div] and [float_add] of the training loops: what is
    proved of [cv_fit] holds whatever they round to.  [Float64] gives the
    IEEE binary64 instance (round to nearest, ties to even, overflow to an
    infinity), used to run the loops on concrete data.

    Collaborators.  Keras ([super().fit], [super().predict_proba]), the
    estimator handed to [cv_fit], the fold splitter and [log_loss] are
    parameters of the development: they may return anything and may raise.
    [Sklearn.KFold] is scikit-learn's default splitter. *)

From Stdlib Require Import QArith Qcanon ZArith Lia Lqa List String.
From stdpp Require Import base numbers list strings gmap.
Import ListNotations.

Local Open Scope Qc_scope.

(** ** Python exceptions and results *)

Inductive exn :=
| ZeroDivisionError
| AttributeError
| IndexError
| ValueError
| Raised (who : string).

Inductive result (A : Type) :=
| Ok (a : A)
| Err (e : exn).
Arguments Ok {A} a.
Arguments Err {A} e.

Definition is_ok {A} (r : result A) : bool :=
  match r with Ok _ => true | Err _ => false end.

(** ** Numbers *)

Inductive num :=
| Fin (q : Qc)
| PInf
| NInf
| NaN.

#[export] Instance num_eq_dec : EqDecision num.
Proof. solve_decision. Defined.

Definition nat2Qc (n : nat) : Qc := Qc_of_Z (Z.of_nat n).

(** int -> float and bool -> float conversions *)
Definition of_nat (n : nat) : num := Fin (nat2Qc n).
Definition of_bool (b : bool) : num := Fin (if b then 1 else 0).

(** the sign of a number, as the comparison with zero *)
Definition sgn (a : num) : comparison :=
  match a with
  | Fin q => q ?= 0
  | PInf => Gt
  | NInf => Lt
  | NaN => Eq
  end.

(** the sign of a product *)
Definition sgn_mul (s t : comparison) : comparison :=
  match s, t with
  | Eq, _ | _, Eq => Eq
  | Gt, Gt | Lt, Lt => Gt
  | _, _ => Lt
  end.

(** the infinity of a given sign; the sign of zero stands for "invalid" *)
Definition inf_of (s : comparison) : num :=
  match s with Gt => PInf | Lt => NInf | Eq => NaN end.

(** [a + b]: NaN propagates, and so does [inf - inf] *)
Definition fadd (a b : num) : num :=
  match a, b with
  | NaN, _ | _, NaN => NaN
  | Fin x, Fin y => Fin (x + y)
  | PInf, NInf | NInf, PInf => NaN
  | PInf, _ | _, PInf => PInf
  | NInf, _ | _, NInf => NInf
  end.

(** [a * b]: NaN propagates, and [inf * 0] is NaN *)
Definition fmul (a b : num) : num :=
  match a, b with
  | NaN, _ | _, NaN => NaN
  | Fin x, Fin y => Fin (x * y)
  | _, _ => inf_of (sgn_mul (sgn a) (sgn b))
  end.

(** [a / b] on arrays: a zero divisor gives an infinity, or NaN for [0 / 0],
    and never raises *)
Definition fdiv (a b : num) : num :=
  match a, b with
  | NaN, _ | _, NaN => NaN
  | Fin x, Fin y => if decide (y = 0) then inf_of (x ?= 0) else Fin (x / y)
  | Fin _, _ => Fin 0
  | _, Fin y => if decide (y < 0) then inf_of (sgn_mul (sgn a) Lt) else a
  | _, _ => NaN
  end.

(** [a < b]: false as soon as one side is NaN *)
Definition flt (a b : num) : bool :=
  match a, b with
  | NaN, _ | _, NaN => false
  | Fin x, Fin y => bool_decide (x < y)
  | NInf, NInf => false
  | NInf, _ => true
  | PInf, _ => false
  | Fin _, PInf => true
  | Fin _, NInf => false
  end.

(** [a > b] *)
Definition fgt (a b : num) : bool := flt b a.

Definition is_finite (a : num) : bool :=
  match a with Fin _ => true | _ => false end.

(** [np.add.reduce] over a vector *)
Definition fsum (l : list num) : num := foldr fadd (Fin 0) l.

(** the same sum on rationals *)
Definition Qsum (l : list Qc) : Qc := foldr Qcplus 0 l.

(** ** Two-dimensional arrays

    An [ndarray] is rectangular by construction: a shape and the entry at
    each position.  Entries outside the shape are never read. *)

Record ndarray := {
  shape0 : nat;
  shape1 : nat;
  item : nat -> nat -> num
}.

(** the array with the given rows, each of width [m] *)
Definition from_rows (m : nat) (rows : list (list num)) : ndarray :=
  {| shape0 := length rows;
     shape1 := m;
     item i j := nth j (nth i rows []) NaN |}.

(** [np.zeros((n, m))] *)
Definition zeros (n m : nat) : ndarray :=
  {| shape0 := n; shape1 := m; item _ _ := Fin 0 |}.

Definition column (a : ndarray) (j : nat) : list num :=
  map (fun i => item a i j) (seq 0 (shape0 a)).

(** [a.mean(0)]: the sum of every column divided by the row count *)
Definition mean0 (a : ndarray) : list num :=
  map (fun j => fdiv (fsum (column a j)) (of_nat (shape0 a)))
      (seq 0 (shape1 a)).

(** [a.reshape(-1)]: row-major flattening *)
Definition ravel (a : ndarray) : list num :=
  flat_map (fun i => map (item a i) (seq 0 (shape1 a))) (seq 0 (shape0 a)).

(** [np.where(v > 0)] on a vector *)
Definition where_gt0 (v : list num) : list nat :=
  filter (fun j => fgt (nth j v NaN) (Fin 0) = true) (seq 0 (length v)).

(** [a[:, idx]] for a list of column positions *)
Definition take_cols (a : ndarray) (idx : list nat) : result ndarray :=
  if forallb (fun j => j <? shape1 a)%nat idx
  then Ok {| shape0 := shape0 a;
             shape1 := length idx;
             item i k := item a i (nth k idx 0%nat) |}
  else Err IndexError.

(** position of the last occurrence of [j] in [idx] *)
Fixpoint last_index (j : nat) (idx : list nat) (k : nat) : option nat :=
  match idx with
  | [] => None
  | j' :: idx' =>
      match last_index j idx' (S k) with
      | Some k' => Some k'
      | None => if (j =? j')%nat then Some k else None
      end
  end.

(** [a[:, idx] = v], where [v] has one column per entry of [idx] *)
Definition assign_cols (a : ndarray) (idx : list nat) (v : ndarray) : ndarray :=
  {| shape0 := shape0 a;
     shape1 := shape1 a;
     item i j := match last_index j idx 0 with
                 | Some k => item v i k
                 | None => item a i j
                 end |}.

(** ** DynamicKerasClassifier *)

Module Classifier.
Section WithKeras.

(** the callable given as [build_fn], and a built and trained network *)
Variable Builder : Type.
Variable Model : Type.

(** [functools.partial]: a callable with keyword arguments bound to it *)
Record partial := {
  func : Builder;
  keywords : gmap string nat
}.

(** [partial(f, **kw)]; when [f] is itself a partial object the result is
    flattened and the new keywords override the old ones *)
Definition mk_partial (f : partial) (kw : gmap string nat) : partial :=
  {| func := func f; keywords := kw ∪ keywords f |}.

(** [KerasClassifier.fit]: reads [build_fn] and the [model] attribute,
    leaves a new [model] attribute, returns or raises *)
Variable super_fit :
  partial -> option Model -> ndarray -> ndarray -> option Model * result unit.

(** [KerasClassifier.predict_proba]: reads the [model] attribute *)
Variable super_predict_proba : option Model -> ndarray -> result ndarray.

(** the attributes of an instance; [None] is an attribute not yet set *)
Record DynamicKerasClassifier := {
  build_fn : partial;
  _freqs : option (list num);
  model : option Model
}.

(** a freshly constructed instance *)
Definition init (b : Builder) : DynamicKerasClassifier :=
  {| build_fn := {| func := b; keywords := ∅ |};
     _freqs := None;
     model := None |}.

Definition fit (self : DynamicKerasClassifier) (X y : ndarray)
  : DynamicKerasClassifier * result unit :=
  let self :=
    {| build_fn := mk_partial (build_fn self)
                     (<["input_units" := shape1 X]>
                        (<["output_units" := shape1 y]> ∅));
       _freqs := _freqs self;
       model := model self |} in
  match shape0 X with
  | O => (self, Err ZeroDivisionError)
  | S _ =>
      let cut := Fin (Qc_of_Z 200 / nat2Qc (shape0 X)) in
      let freqs := mean0 y in
      let self :=
        {| build_fn := build_fn self;
           _freqs := Some (map (fun f => fmul f (of_bool (flt f cut))) freqs);
           model := model self |} in
      let '(m, r) := super_fit (build_fn self) (model self) X y in
      ({| build_fn := build_fn self; _freqs := _freqs self; model := m |}, r)
  end.

Definition predict_proba (self : DynamicKerasClassifier) (X : ndarray)
  : DynamicKerasClassifier * result ndarray :=
  match super_predict_proba (model self) X with
  | Err e => (self, Err e)
  | Ok probas =>
      match _freqs self with
      | None => (self, Err AttributeError)
      | Some freqs =>
          let idx := where_gt0 freqs in
          match take_cols probas idx with
          | Err e => (self, Err e)
          | Ok sub =>
              let blended :=
                {| shape0 := shape0 sub;
                   shape1 := shape1 sub;
                   item i k :=
                     fdiv (fadd (item sub i k)
                                (nth (nth k idx 0%nat) freqs NaN))
                          (Fin 2) |} in
              (self, Ok (assign_cols probas idx blended))
          end
      end
  end.

End WithKeras.
End Classifier.

(** ** Feature tables

    The feature table of [cv_fit] is a data frame and that of [fit] an
    object array; both are a width and a list of rows of cells.  Row
    positions are Python integers: a negative one counts from the end. *)

Inductive cell :=
| CStr (s : string)
| CNum (x : num).

Record table := {
  ncols : nat;
  rows : list (list cell)
}.

(** [c == "ctl_vehicle"] on one cell *)
Definition is_ctl (c : cell) : bool :=
  match c with
  | CStr s => String.eqb s "ctl_vehicle"
  | CNum _ => false
  end.

(** the comparison on the first cell of a row *)
Definition ctl_row (r : list cell) : bool := is_ctl (hd (CNum NaN) r).

(** [X.iloc[:, 0] == "ctl_vehicle"], also [X[:, 0] == "ctl_vehicle"] *)
Definition ctl_mask (X : table) : result (list bool) :=
  match ncols X with
  | O => Err IndexError
  | S _ => Ok (map ctl_row (rows X))
  end.

(** a row position in a table of [n] rows; out of bounds raises *)
Definition norm_index (n : nat) (i : Z) : result nat :=
  if (0 <=? i)%Z && (i <? Z.of_nat n)%Z then Ok (Z.to_nat i)
  else if (- Z.of_nat n <=? i)%Z && (i <? 0)%Z then Ok (Z.to_nat (i + Z.of_nat n))
  else Err IndexError.

Fixpoint norm_indices (n : nat) (idx : list Z) : result (list nat) :=
  match idx with
  | [] => Ok []
  | i :: idx' =>
      match norm_index n i with
      | Err e => Err e
      | Ok k =>
          match norm_indices n idx' with
          | Err e => Err e
          | Ok ks => Ok (k :: ks)
          end
      end
  end.

(** [X.iloc[idx]] *)
Definition iloc (X : table) (idx : list Z) : result table :=
  match norm_indices (length (rows X)) idx with
  | Err e => Err e
  | Ok ks => Ok {| ncols := ncols X;
                   rows := map (fun k => nth k (rows X) []) ks |}
  end.

(** [y[idx]] for a list of row positions *)
Definition take_rows (y : ndarray) (idx : list Z) : result ndarray :=
  match norm_indices (shape0 y) idx with
  | Err e => Err e
  | Ok ks => Ok {| shape0 := length ks;
                   shape1 := shape1 y;
                   item i j := item y (nth i ks 0%nat) j |}
  end.

(** selection by a boolean mask *)
Fixpoint compress {A} (keep : list bool) (l : list A) : list A :=
  match keep, l with
  | b :: keep', x :: l' =>
      if b then x :: compress keep' l' else compress keep' l'
  | _, _ => []
  end.

(** [X[keep]] on a table whose mask was computed from its own rows *)
Definition mask_table (X : table) (keep : list bool) : table :=
  {| ncols := ncols X; rows := compress keep (rows X) |}.

(** [y[keep]]: the mask must have one entry per row *)
Definition mask_rows (y : ndarray) (keep : list bool) : result ndarray :=
  if (length keep =? shape0 y)%nat
  then let ks := compress keep (seq 0 (length keep)) in
       Ok {| shape0 := length ks;
             shape1 := shape1 y;
             item i j := item y (nth i ks 0%nat) j |}
  else Err IndexError.

(** [np.nan_to_num] with its default arguments; [big] is the largest finite
    value of the array's dtype *)
Definition nan_to_num1 (big : Qc) (a : num) : num :=
  match a with
  | Fin q => Fin q
  | NaN => Fin 0
  | PInf => Fin big
  | NInf => Fin (- big)
  end.

Definition nan_to_num (big : Qc) (a : ndarray) : ndarray :=
  {| shape0 := shape0 a;
     shape1 := shape1 a;
     item i j := nan_to_num1 big (item a i j) |}.

(** [a / n] for a Python integer [n]; [float_div] is the division of the
    array's dtype *)
Definition div_scalar (float_div : num -> nat -> num) (a : ndarray) (n : nat)
  : ndarray :=
  {| shape0 := shape0 a;
     shape1 := shape1 a;
     item i j := float_div (item a i j) n |}.

(** the entry of [b] that broadcasting puts at position [(i, j)] *)
Definition bitem (b : ndarray) (i j : nat) : num :=
  item b (if (shape0 b =? 1)%nat then 0%nat else i)
         (if (shape1 b =? 1)%nat then 0%nat else j).

(** [a += b]: [b] is broadcast to the shape of [a]; [float_add] is the
    addition of the dtype of [a] *)
Definition iadd (float_add : num -> num -> num) (a b : ndarray)
  : result ndarray :=
  if ((shape0 b =? shape0 a)%nat || (shape0 b =? 1)%nat)
     && ((shape1 b =? shape1 a)%nat || (shape1 b =? 1)%nat)
  then Ok {| shape0 := shape0 a;
             shape1 := shape1 a;
             item i j := float_add (item a i j) (bitem b i j) |}
  else Err ValueError.

(** ** IEEE binary formats

    The float operations of numpy on the values of [num]: the exact result
    rounded to the nearest value of the format, ties to the even
    significand; a result beyond the largest finite value is an infinity. *)

Module IEEE.

(** a binary format: the number of bits of the significand, and the
    exponents of the last bit of the smallest and of the largest finite
    value *)
Record format := {
  prec : Z;
  emin : Z;
  emax : Z
}.

Definition binary64 : format := {| prec := 53; emin := -1074; emax := 971 |}.
Definition binary32 : format := {| prec := 24; emin := -149; emax := 104 |}.

(** the integer nearest to [a / b] for [0 <= a] and [0 < b], ties to even *)
Definition round_half_even (a b : Z) : Z :=
  let q := (a / b)%Z in
  match (2 * (a mod b) ?= b)%Z with
  | Lt => q
  | Gt => (q + 1)%Z
  | Eq => if Z.even q then q else (q + 1)%Z
  end.

(** [floor (log2 (a / b))] for positive [a] and [b] *)
Definition log2_ratio (a b : Z) : Z :=
  let l := (Z.log2 a - Z.log2 b)%Z in
  if (b * 2 ^ Z.log2 a <=? a * 2 ^ Z.log2 b)%Z then l else (l - 1)%Z.

(** the value of the format nearest to [a / b] for positive [a] and [b]: a
    significand [m] of at most [prec] bits at the exponent [e >= emin] of
    the binade of [a / b]; [None] is overflow *)
Definition round_pos (f : format) (a b : Z) : option Q :=
  let e := Z.max (log2_ratio a b - (prec f - 1)) (emin f) in
  let m := if (0 <=? e)%Z then round_half_even a (b * 2 ^ e)
           else round_half_even (a * 2 ^ (- e)) b in
  if (emax f <? e)%Z || ((e =? emax f)%Z && (m =? 2 ^ prec f)%Z) then None
  else Some (if (0 <=? e)%Z then Qmake (m * 2 ^ e) 1
             else Qmake m (Z.to_pos (2 ^ (- e)))).

Definition round_Qc (f : format) (q : Qc) : num :=
  match Qnum q with
  | Z0 => Fin 0
  | Zpos a =>
      match round_pos f (Zpos a) (Zpos (Qden q)) with
      | Some v => Fin (Q2Qc v)
      | None => PInf
      end
  | Zneg a =>
      match round_pos f (Zpos a) (Zpos (Qden q)) with
      | Some v => Fin (- Q2Qc v)
      | None => NInf
      end
  end.

Definition round (f : format) (a : num) : num :=
  match a with
  | Fin q => round_Qc f q
  | _ => a
  end.

(** the largest finite value of a format *)
Definition largest (f : format) : Qc :=
  Qc_of_Z ((2 ^ prec f - 1) * 2 ^ emax f).

End IEEE.

(** float64 addition, and the division of a float64 by a Python integer
    (one below 2^53, which float64 holds exactly) *)
Module Float64.

Definition round : num -> num := IEEE.round IEEE.binary64.
Definition add (a b : num) : num := round (fadd a b).
Definition div (a : num) (n : nat) : num := round (fdiv a (of_nat n)).
Definition max : Qc := IEEE.largest IEEE.binary64.

End Float64.

(** the division of a float32 by a Python integer (one below 2^24), which
    numpy computes in float32 *)
Module Float32.

Definition round : num -> num := IEEE.round IEEE.binary32.
Definition div (a : num) (n : nat) : num := round (fdiv a (of_nat n)).
Definition max : Qc := IEEE.largest IEEE.binary32.

End Float32.

(** ** Collaborator calls and their trace *)

Inductive event :=
| EvPrint (fn : nat)
| EvFit (X : table) (y : ndarray)
| EvPredict (X : table)
| EvLogLoss (y_true y_pred : list num).

(** a computation that appends to the trace of calls and returns or raises *)
Definition M (A : Type) : Type := list event -> list event * result A.

Definition ret {A} (a : A) : M A := fun t => (t, Ok a).

Definition bind {A B} (m : M A) (k : A -> M B) : M B :=
  fun t =>
    match m t with
    | (t', Ok a) => k a t'
    | (t', Err e) => (t', Err e)
    end.

Definition lift {A} (r : result A) : M A := fun t => (t, r).

Definition emit (ev : event) : M unit := fun t => (t ++ [ev], Ok tt).

(** a computation whose events and result do not depend on the trace it
    starts from *)
Definition natural {A} (m : M A) : Prop :=
  forall t, m t = (t ++ fst (m []), snd (m [])).

(** the two conditions on a collaborator call: [fit] is given no control
    row, and [log_loss] is given finite predictions only *)
Definition event_ok (ev : event) : bool :=
  match ev with
  | EvFit Xt _ => forallb (fun r => negb (ctl_row r)) (rows Xt)
  | EvLogLoss _ y_pred => forallb is_finite y_pred
  | _ => true
  end.

Notation "'let*' x ':=' m 'in' k" := (bind m (fun x => k))
  (at level 10, x pattern, m at level 200, k at level 200).

(** an scikit-learn estimator: [clone], [fit] and [predict_proba]; the two
    methods return the instance as they leave it *)
Class Estimator (E : Type) := {
  clone : E -> E;
  est_fit : E -> table -> ndarray -> result E;
  est_predict_proba : E -> table -> result (E * ndarray)
}.

(** a fold splitter: its [n_splits] attribute, the folds that iterating
    [split(X, y)] yields, and the exception, if any, that the iteration
    raises after them instead of stopping *)
Record splitter := {
  n_splits : nat;
  split : table -> ndarray -> list (list Z * list Z);
  split_raises : table -> ndarray -> option exn
}.

(** ** cv_fit and fit *)

Module Train.
Section WithCollaborators.

Context {E : Type} `{Estimator E}.
Variable log_loss : list num -> list num -> result num.

(** the constructor [KFold(n_splits=...)], which may raise *)
Variable KFold : nat -> result splitter.

(** the largest finite value of the dtype of the predictions *)
Variable big : Qc.

(** the float addition of [test_preds += ...] and the float division of
    [preds / cv.n_splits] *)
Variable float_add : num -> num -> num.
Variable float_div : num -> nat -> num.

Definition call_fit (e : E) (X : table) (y : ndarray) : M E :=
  let* _ := emit (EvFit X y) in lift (est_fit e X y).

Definition call_predict_proba (e : E) (X : table) : M (E * ndarray) :=
  let* _ := emit (EvPredict X) in lift (est_predict_proba e X).

Definition call_log_loss (y_true y_pred : list num) : M num :=
  let* _ := emit (EvLogLoss y_true y_pred) in lift (log_loss y_true y_pred).

(** one pass through the loop body, up to the sanitized test prediction *)
Definition run_fold (clf : E) (X : table) (y : ndarray) (X_test : table)
    (fn : nat) (fold : list Z * list Z) : M (E * num * num * ndarray) :=
  let '(trn_idx, val_idx) := fold in
  let* _ := emit (EvPrint fn) in
  let e := clone clf in
  let* X_train := lift (iloc X trn_idx) in
  let* X_val := lift (iloc X val_idx) in
  let* y_train := lift (take_rows y trn_idx) in
  let* y_val := lift (take_rows y val_idx) in
  let* mask := lift (ctl_mask X_train) in
  let X_train := mask_table X_train (map negb mask) in
  let* y_train := lift (mask_rows y_train (map negb mask)) in
  let* e := call_fit e X_train y_train in
  let* (e, train_preds) := call_predict_proba e X_train in
  let train_preds := nan_to_num big train_preds in
  let* loss_train := call_log_loss (ravel y_train) (ravel train_preds) in
  let* (e, val_preds) := call_predict_proba e X_val in
  let val_preds := nan_to_num big val_preds in
  let* loss_valid := call_log_loss (ravel y_val) (ravel val_preds) in
  let* (e, preds) := call_predict_proba e X_test in
  let preds := nan_to_num big preds in
  ret (e, loss_train, loss_valid, preds).

(** [estimators], [losses_train], [losses_valid] and [test_preds] *)
Definition cv_state : Type := list E * list num * list num * ndarray.

(** the [for] loop over the folds that [cv.split] yields, [fn] counting
    them *)
Fixpoint cv_loop (cv : splitter) (clf : E) (X : table) (y : ndarray)
    (X_test : table) (folds : list (list Z * list Z)) (fn : nat)
    (st : cv_state) : M cv_state :=
  match folds with
  | [] => ret st
  | fold :: folds' =>
      let '(estimators, losses_train, losses_valid, test_preds) := st in
      let* (e, loss_train, loss_valid, preds) :=
        run_fold clf X y X_test fn fold in
      let* test_preds :=
        lift (iadd float_add test_preds
                (div_scalar float_div preds (n_splits cv))) in
      cv_loop cv clf X y X_test folds' (S fn)
        (estimators ++ [e], losses_train ++ [loss_train],
         losses_valid ++ [loss_valid], test_preds)
  end.

(** [cv or KFold(n_splits=n_splits)] *)
Definition cv_or (cv : option splitter) (n_splits_arg : nat)
  : result splitter :=
  match cv with Some c => Ok c | None => KFold n_splits_arg end.

Definition cv_fit (clf : E) (X : table) (y : ndarray) (X_test : table)
    (cv : option splitter) (n_splits_arg : nat) : M cv_state :=
  let* cv := lift (cv_or cv n_splits_arg) in
  let test_preds := zeros (length (rows X_test)) (shape1 y) in
  let* st :=
    cv_loop cv clf X y X_test (split cv X y) 0 ([], [], [], test_preds) in
  match split_raises cv X y with
  | Some e => lift (Err e)
  | None => ret st
  end.

Definition fit (clf : E) (X : table) (y : ndarray) (X_test : table)
  : M (E * list num * list num * ndarray) :=
  let* mask := lift (ctl_mask X) in
  let X_train := mask_table X (map negb mask) in
  let* y_train := lift (mask_rows y (map negb mask)) in
  let* clf := call_fit clf X_train y_train in
  let* (clf, train_preds) := call_predict_proba clf X_train in
  let train_preds := nan_to_num big train_preds in
  let* loss := call_log_loss (ravel y_train) (ravel train_preds) in
  let* (clf, test_preds) := call_predict_proba clf X_test in
  let test_preds := nan_to_num big test_preds in
  ret (clf, [loss], [loss], test_preds).

(** what a fold returns and which calls it makes when run on its own *)
Definition fold_result (clf : E) (X : table) (y : ndarray) (X_test : table)
    (fold : list Z * list Z) : result (E * num * num * ndarray) :=
  snd (run_fold clf X y X_test 0 fold []).

Definition fold_events (clf : E) (X : table) (y : ndarray) (X_test : table)
    (fn : nat) (fold : list Z * list Z) : list event :=
  fst (run_fold clf X y X_test fn fold []).

(** a fold that returns a prediction which [test_preds += ...] accepts *)
Definition fold_passes (cv : splitter) (clf : E) (X : table) (y : ndarray)
    (X_test : table) (fold : list Z * list Z) : bool :=
  match fold_result clf X y X_test fold with
  | Ok (_, _, _, preds) =>
      is_ok (iadd float_add (zeros (length (rows X_test)) (shape1 y))
                  (div_scalar float_div preds (n_splits cv)))
  | Err _ => false
  end.

(** the sanitized test prediction of a fold, if the fold returns *)
Definition fold_preds (clf : E) (X : table) (y : ndarray) (X_test : table)
    (fold : list Z * list Z) : option ndarray :=
  match fold_result clf X y X_test fold with
  | Ok (_, _, _, preds) => Some preds
  | Err _ => None
  end.

(** entry [(i, j)] of the sanitized test prediction of a fold, as the
    accumulation reads it *)
Definition fold_pred_item (clf : E) (X : table) (y : ndarray) (X_test : table)
    (fold : list Z * list Z) (i j : nat) : num :=
  match fold_preds clf X y X_test fold with
  | Some p => bitem p i j
  | None => NaN
  end.

(** the collaborator calls of lines 173-195 for one fold, with the estimator,
    the two losses and the sanitized test prediction they end with *)
Definition fold_calls (clf : E) (X : table) (y : ndarray) (X_test : table)
    (fold : list Z * list Z) (r : E * num * num * ndarray) : Prop :=
  exists Xtr0 Xval ytr0 yval mask ytr e0 e1 ptr e2 pval p,
    iloc X fold.1 = Ok Xtr0 /\ iloc X fold.2 = Ok Xval /\
    take_rows y fold.1 = Ok ytr0 /\ take_rows y fold.2 = Ok yval /\
    ctl_mask Xtr0 = Ok mask /\
    mask_rows ytr0 (map negb mask) = Ok ytr /\
    est_fit (clone clf) (mask_table Xtr0 (map negb mask)) ytr = Ok e0 /\
    est_predict_proba e0 (mask_table Xtr0 (map negb mask)) = Ok (e1, ptr) /\
    log_loss (ravel ytr) (ravel (nan_to_num big ptr)) = Ok r.1.1.2 /\
    est_predict_proba e1 Xval = Ok (e2, pval) /\
    log_loss (ravel yval) (ravel (nan_to_num big pval)) = Ok r.1.2 /\
    est_predict_proba e2 X_test = Ok (r.1.1.1, p) /\
    r.2 = nan_to_num big p.

(** entry by entry, [test_preds] after the loop: from 0, the quotient of
    each fold's prediction by [n] is added in turn *)
Definition accumulate (n : nat) (xs : list num) : num :=
  foldl float_add (Fin 0) (map (fun x => float_div x n) xs).

(** no division and no addition of such an accumulation rounds: each gives
    the exact quotient or sum *)
Fixpoint no_rounding (acc : num) (n : nat) (xs : list num) : Prop :=
  match xs with
  | [] => True
  | x :: xs' =>
      float_div x n = fdiv x (of_nat n) /\
      float_add acc (float_div x n) = fadd acc (float_div x n) /\
      no_rounding (float_add acc (float_div x n)) n xs'
  end.

End WithCollaborators.
End Train.

(** ** scikit-learn's KFold

    [KFold(n_splits=k)] without shuffling: the constructor raises ValueError
    unless [k >= 2]; [split(X, y)] raises ValueError on its first iteration
    when [X] and [y] differ in length or when there are fewer than [k] rows,
    and otherwise yields [k] folds whose validation parts are consecutive
    blocks of rows, the first [n mod k] of them one row longer. *)

Module Sklearn.

Definition fold_sizes (n k : nat) : list nat :=
  map (fun i => (n / k + (if (i <? n mod k)%nat then 1 else 0))%nat) (seq 0 k).

(** the folds whose validation blocks start at row [start] *)
Fixpoint folds_from (n start : nat) (sizes : list nat)
  : list (list Z * list Z) :=
  match sizes with
  | [] => []
  | size :: sizes' =>
      let stop := (start + size)%nat in
      (map Z.of_nat (seq 0 start ++ seq stop (n - stop)),
       map Z.of_nat (seq start size))
      :: folds_from n stop sizes'
  end.

Definition folds (n k : nat) : list (list Z * list Z) :=
  folds_from n 0 (fold_sizes n k).

Definition split_ok (k : nat) (X : table) (y : ndarray) : bool :=
  (length (rows X) =? shape0 y)%nat && (k <=? length (rows X))%nat.

(** the splitter object, once constructed *)
Definition kfold (k : nat) : splitter :=
  {| n_splits := k;
     split X y := if split_ok k X y then folds (length (rows X)) k else [];
     split_raises X y := if split_ok k X y then None else Some ValueError |}.

Definition KFold (k : nat) : result splitter :=
  if (k <? 2)%nat then Err ValueError else Ok (kfold k).

End Sklearn.

(** ** Concrete collaborators and data, used to run the model *)

Module Demo.

(** a stand-in for Keras: the "network" is its number of output units, and
    it predicts 0.6 everywhere *)
Definition keras_fit (b : Classifier.partial unit) (m : option nat)
    (X y : ndarray) : option nat * result unit :=
  (Some (default 0%nat (Classifier.keywords unit b !! "output_units")), Ok tt).

Definition keras_predict_proba (m : option nat) (X : ndarray)
  : result ndarray :=
  match m with
  | None => Err AttributeError
  | Some w => Ok {| shape0 := shape0 X;
                    shape1 := w;
                    item _ _ := Fin (Q2Qc (6 # 10)) |}
  end.

Definition dkc : Type := Classifier.DynamicKerasClassifier unit nat.
Definition dkc_init : dkc := Classifier.init unit nat tt.
Definition dkc_fit : dkc -> ndarray -> ndarray -> dkc * result unit :=
  Classifier.fit unit nat keras_fit.
Definition dkc_predict_proba : dkc -> ndarray -> dkc * result ndarray :=
  Classifier.predict_proba unit nat keras_predict_proba.

(** the label table [[1,0],[1,0],[0,0],[0,1]] and a 4 x 3 feature matrix *)
Definition y4 : ndarray :=
  from_rows 2 [[Fin 1; Fin 0]; [Fin 1; Fin 0]; [Fin 0; Fin 0]; [Fin 0; Fin 1]].
Definition X4 : ndarray := zeros 4 3.

(** a second data set of another shape *)
Definition y1 : ndarray := from_rows 1 [[Fin 1]].
Definition X1 : ndarray := zeros 1 5.

(** an estimator for [cv_fit]: fitting records the label count, predicting
    fills a matrix with the value it was configured with *)
Record toy := {
  toy_width : option nat;
  toy_out : num
}.

#[global] Instance toy_estimator : Estimator toy := {|
  clone e := {| toy_width := None; toy_out := toy_out e |};
  est_fit e X y := Ok {| toy_width := Some (shape1 y); toy_out := toy_out e |};
  est_predict_proba e X :=
    match toy_width e with
    | None => Err (Raised "NotFittedError")
    | Some m => Ok (e, {| shape0 := length (rows X);
                          shape1 := m;
                          item _ _ := toy_out e |})
    end
|}.

(** a loss that reports how many label entries it was given *)
Definition count_loss (y_true y_pred : list num) : result num :=
  Ok (of_nat (length y_true)).

Definition features : table :=
  {| ncols := 2;
     rows := [[CStr "trt_cp"; CNum (of_nat 1)];
              [CStr "ctl_vehicle"; CNum (of_nat 2)];
              [CStr "trt_cp"; CNum (of_nat 3)];
              [CStr "trt_cp"; CNum (of_nat 4)]] |}.

Definition test_features : table :=
  {| ncols := 2;
     rows := [[CStr "trt_cp"; CNum (of_nat 5)];
              [CStr "ctl_vehicle"; CNum (of_nat 6)]] |}.

(** two folds over four rows *)
Definition two_fold : splitter :=
  {| n_splits := 2;
     split _ _ := [([2%Z; 3%Z], [0%Z; 1%Z]); ([0%Z; 1%Z], [2%Z; 3%Z])];
     split_raises _ _ := None |}.

(** a splitter that declares two splits and yields one *)
Definition short_fold : splitter :=
  {| n_splits := 2;
     split _ _ := [([2%Z; 3%Z], [0%Z; 1%Z])];
     split_raises _ _ := None |}.

(** the largest finite float32 *)
Definition float32_max : Qc :=
  Qc_of_Z 340282346638528859811704183484516925440.

(** estimators predicting 0.6, +Inf and NaN *)
Definition clf06 : toy := {| toy_width := None; toy_out := Fin (Q2Qc (6 # 10)) |}.
Definition clf_inf : toy := {| toy_width := None; toy_out := PInf |}.
Definition clf_nan : toy := {| toy_width := None; toy_out := NaN |}.

(** the entries of [y4] as rationals *)
Definition y4_q (i j : nat) : Qc :=
  match item y4 i j with Fin q => q | _ => 0 end.

(** the instance after [fit(X4, y4)], and after a second [fit(X1, y1)] *)
Definition dkc_fitted : dkc := (dkc_fit dkc_init X4 y4).1.
Definition dkc_refitted : dkc := (dkc_fit dkc_fitted X1 y1).1.

(** [cv_fit] on float32 predictions: the quotient is a float32 and the
    accumulated matrix a float64 *)
Definition toy_cv_fit (clf : toy) (cv : splitter) :=
  Train.cv_fit count_loss Sklearn.KFold float32_max Float64.add Float32.div
    clf features y4 test_features (Some cv) 5 [].

Definition toy_fit (clf : toy) :=
  Train.fit count_loss float32_max clf features y4 test_features [].

End Demo.

(** ** PandasSelector

    A data frame with column labels.  Labels need not be distinct: selecting
    a label takes every column that carries it. *)

Record frame := {
  columns : list string;
  frame_rows : list (list cell)
}.

Definition KeyError : exn := Raised "KeyError".

(** [X.to_numpy()] *)
Definition to_numpy (X : frame) : table :=
  {| ncols := length (columns X); rows := frame_rows X |}.

(** the positions, counted from [k], of the entries of [cols] that satisfy
    [P] *)
Fixpoint sel (P : string -> bool) (cols : list string) (k : nat) : list nat :=
  match cols with
  | [] => []
  | c :: cols' => if P c then k :: sel P cols' (S k) else sel P cols' (S k)
  end.

(** the positions selected by a list of labels; a label that no column
    carries raises *)
Fixpoint locate (cols : list string) (labels : list string)
  : result (list nat) :=
  match labels with
  | [] => Ok []
  | c :: labels' =>
      match sel (String.eqb c) cols 0 with
      | [] => Err KeyError
      | ps =>
          match locate cols labels' with
          | Err e => Err e
          | Ok ks => Ok (ps ++ ks)
          end
      end
  end.

(** [X[labels]] for a list of column labels *)
Definition getitem (X : frame) (labels : list string) : result frame :=
  match locate (columns X) labels with
  | Err e => Err e
  | Ok ks =>
      Ok {| columns := map (fun k => nth k (columns X) EmptyString) ks;
            frame_rows :=
              map (fun r => map (fun k => nth k r (CNum NaN)) ks)
                  (frame_rows X) |}
  end.

Module PandasSelector.

(** the attributes [cols] and [startswith]; [None] is Python's [None] *)
Record t := {
  cols : option (list string);
  startswith : option string
}.

(** what [transform] returns: an array, or a frame *)
Inductive selected :=
| AsArray (a : table)
| AsFrame (f : frame).

Definition fit (self : t) (X : frame) : t :=
  match cols self, startswith self with
  | None, Some p =>
      {| cols := Some (List.filter (String.prefix p) (columns X));
         startswith := startswith self |}
  | _, _ => self
  end.

Definition transform (self : t) (X : frame) : result selected :=
  match cols self with
  | None => Ok (AsArray (to_numpy X))
  | Some labels =>
      match getitem X labels with
      | Err e => Err e
      | Ok f => Ok (AsFrame f)
      end
  end.

End PandasSelector.

(** ** read_data *)

Module ReadData.
Section WithFiles.

(** [Path(path).is_file()] *)
Variable is_file : string -> bool.
(** [Path("/kaggle/input/lish-moa/") / Path(path).name] *)
Variable fallback : string -> string.
(** [pd.read_csv] *)
Variable read_csv : string -> result frame.
(** the float that [astype] makes of a string cell, if it makes one *)
Variable float_of : string -> option num.

(** what [read_data] returns: the frame, or a float array *)
Inductive data :=
| DataFrame (df : frame)
| Array (a : ndarray).

(** [df.drop(columns=[c], inplace=True)] *)
Definition drop_column (df : frame) (c : string) : result frame :=
  match sel (String.eqb c) (columns df) 0 with
  | [] => Err KeyError
  | _ =>
      let ks := sel (fun c' => negb (String.eqb c c')) (columns df) 0 in
      Ok {| columns := map (fun k => nth k (columns df) EmptyString) ks;
            frame_rows :=
              map (fun r => map (fun k => nth k r (CNum NaN)) ks)
                  (frame_rows df) |}
  end.

Definition cell_float (c : cell) : option num :=
  match c with
  | CNum x => Some x
  | CStr s => float_of s
  end.

(** [df.to_numpy().astype(np.float32)]: a cell that is not a number and
    cannot be read as one raises *)
Definition astype_float32 (df : frame) : result ndarray :=
  if forallb (fun r => forallb (fun c => bool_decide (is_Some (cell_float c))) r)
             (frame_rows df)
  then Ok {| shape0 := length (frame_rows df);
             shape1 := length (columns df);
             item i j :=
               default NaN
                 (cell_float (nth j (nth i (frame_rows df) []) (CNum NaN))) |}
  else Err ValueError.

Definition read_data (path : string) (ignore_col : option string)
    (return_df : bool) : result data :=
  let file_path := if is_file path then path else fallback path in
  match read_csv file_path with
  | Err e => Err e
  | Ok df =>
      match match ignore_col with
            | Some c => drop_column df c
            | None => Ok df
            end with
      | Err e => Err e
      | Ok df =>
          if return_df then Ok (DataFrame df)
          else if (length (columns df) =? 206)%nat
               then match astype_float32 df with
                    | Err e => Err e
                    | Ok a => Ok (Array a)
                    end
               else Ok (DataFrame df)
      end
  end.

End WithFiles.
End ReadData.

(** ** Counting and positions

    the number of rows among the first [n] in which label [j] is positive,
    for a label table given by its bits *)
Definition positives (b : nat -> nat -> bool) (n j : nat) : nat :=
  length (List.filter (fun i => b i j) (seq 0 n)).

(** the positions of the rows of a table that are not control rows *)
Definition kept_positions (X : table) : list nat :=
  List.filter (fun p => negb (ctl_row (nth p (rows X) [])))
              (seq 0 (length (rows X))).

(** ** More concrete data *)

Module Demo2.

(** a frame with one categorical column and three assay columns *)
Definition assay : frame :=
  {| columns := ["cp_type"; "c-0"; "g-0"; "c-1"];
     frame_rows := [[CStr "trt_cp"; CNum (of_nat 1); CNum (of_nat 2); CNum (of_nat 3)];
                    [CStr "ctl_vehicle"; CNum (of_nat 4); CNum (of_nat 5); CNum (of_nat 6)]] |}.

(** a frame that lacks the column "c-1" *)
Definition assay_short : frame :=
  {| columns := ["cp_type"; "c-0"];
     frame_rows := [[CStr "trt_cp"; CNum (of_nat 7)]] |}.

Definition by_prefix (p : string) : PandasSelector.t :=
  {| PandasSelector.cols := None; PandasSelector.startswith := Some p |}.

(** a file system with one file *)
Definition one_file (path : string) : bool := String.eqb path "data/x.csv".
Definition kaggle (path : string) : string := "/kaggle/input/lish-moa/x.csv".
Definition csv_with_id : frame :=
  {| columns := ["sig_id"; "cp_type"; "c-0"];
     frame_rows := [[CStr "id_0"; CStr "trt_cp"; CNum (of_nat 1)]] |}.
Definition read_one (path : string) : result frame :=
  if String.eqb path "data/x.csv" then Ok csv_with_id
  else Err (Raised "FileNotFoundError").
Definition no_float (s : string) : option num := None.

Definition read_demo :=
  ReadData.read_data one_file kaggle read_one no_float.

(** a label table of 250 rows: label 0 positive in the first 200 rows,
    label 1 in the first 3, label 2 never *)
Definition y250_bit (i j : nat) : bool :=
  match j with
  | 0%nat => (i <? 200)%nat
  | 1%nat => (i <? 3)%nat
  | _ => false
  end.
Definition y250 : ndarray :=
  {| shape0 := 250; shape1 := 3; item i j := of_bool (y250_bit i j) |}.
Definition X250 : ndarray := zeros 250 4.

(** an empty feature matrix of width 7 *)
Definition X0 : ndarray := zeros 0 7.

(** a raw output narrower than the mask of [Demo.dkc_fitted] *)
Definition narrow : ndarray := zeros 4 1.

(** an estimator whose predictions have one column too many *)
Record wide := { wide_fitted : bool }.

#[global] Instance wide_estimator : Estimator wide := {|
  clone e := {| wide_fitted := false |};
  est_fit e X y := Ok {| wide_fitted := true |};
  est_predict_proba e X :=
    Ok (e, {| shape0 := length (rows X);
              shape1 := 3;
              item _ _ := Fin (Q2Qc (1 # 2)) |})
|}.

(** folds whose second one points outside the table *)
Definition bad_fold : splitter :=
  {| n_splits := 2;
     split _ _ := [([2%Z; 3%Z], [0%Z; 1%Z]); ([0%Z; 9%Z], [2%Z; 3%Z]);
                   ([0%Z], [1%Z])];
     split_raises _ _ := None |}.

(** a label table with one row too few for [Demo.features] *)
Definition y3 : ndarray := zeros 3 2.

End Demo2.

(** ** Data for the order of accumulation *)

Module Demo3.

(** an estimator that predicts, everywhere, the number in the second cell of
    the first row it was fitted on *)
Record echo := {
  echo_out : option num;
  echo_width : nat
}.

Definition second_cell (X : table) : num :=
  match rows X with
  | (_ :: CNum x :: _) :: _ => x
  | _ => NaN
  end.

#[global] Instance echo_estimator : Estimator echo := {|
  clone e := {| echo_out := None; echo_width := 0 |};
  est_fit e X y :=
    Ok {| echo_out := Some (second_cell X); echo_width := shape1 y |};
  est_predict_proba e X :=
    match echo_out e with
    | None => Err (Raised "NotFittedError")
    | Some x => Ok (e, {| shape0 := length (rows X);
                          shape1 := echo_width e;
                          item _ _ := x |})
    end
|}.

Definition echo0 : echo := {| echo_out := None; echo_width := 0 |}.

(** 3/4 and 3 * 2^-55, both of them float64 values *)
Definition three_quarters : num := Fin (Q2Qc (3 # 4)).
Definition three_tiny : num := Fin (Q2Qc (3 # 36028797018963968)).

(** 1/4 and 1/4 + 2^-54 *)
Definition quarter : Qc := Q2Qc (1 # 4).
Definition quarter_up : Qc := Q2Qc (4503599627370497 # 18014398509481984).

Definition features : table :=
  {| ncols := 2;
     rows := [[CStr "trt_cp"; CNum three_tiny];
              [CStr "trt_cp"; CNum three_quarters];
              [CStr "trt_cp"; CNum three_tiny]] |}.

Definition labels : ndarray := zeros 3 1.

Definition test_features : table :=
  {| ncols := 2; rows := [[CStr "trt_cp"; CNum (of_nat 0)]] |}.

(** the folds of [KFold(n_splits=3)], last fold first *)
Definition reversed : splitter :=
  {| n_splits := 3;
     split X y := rev (split (Sklearn.kfold 3) X y);
     split_raises _ _ := None |}.

(** [cv_fit] on float64 predictions, with the default splitter or [cv] *)
Definition run (cv : option splitter) :=
  Train.cv_fit Demo.count_loss Sklearn.KFold Float64.max
    Float64.add Float64.div echo0 features labels test_features cv 3 [].

(** the smallest positive float64, 2^-1074, and a table holding twice that
    and 0 *)
Definition denormal : Qc := Q2Qc (Qmake 1 (Z.to_pos (2 ^ 1074))).

Definition features_tiny : table :=
  {| ncols := 2;
     rows := [[CStr "trt_cp"; CNum (Fin (denormal + denormal))];
              [CStr "trt_cp"; CNum (Fin 0)]] |}.

(** a splitter that declares three splits and yields two folds *)
Definition three_declared : splitter :=
  {| n_splits := 3;
     split _ _ := [([0%Z], [1%Z]); ([1%Z], [0%Z])];
     split_raises _ _ := None |}.

(** a splitter that declares one split and yields two folds *)
Definition unit_split : splitter :=
  {| n_splits := 1;
     split _ _ := [([2%Z; 3%Z], [0%Z; 1%Z]); ([0%Z; 1%Z], [2%Z; 3%Z])];
     split_raises _ _ := None |}.

(** predictions of 1/2 everywhere *)
Definition clf05 : Demo.toy :=
  {| Demo.toy_width := None; Demo.toy_out := Fin (Q2Qc (1 # 2)) |}.

End Demo3.

(** * Properties *)

(** ** Arithmetic and array lemmas *)

(** closes a decidable goal on closed terms by evaluating its decision *)
Ltac decide_by_compute :=
  apply (bool_decide_unpack _); vm_compute; exact I.

Lemma nat2Qc_nonzero (n : nat) : (0 < n)%nat -> nat2Qc n <> 0.
Proof.
  intros Hn Heq. unfold nat2Qc in Heq.
  rewrite <- Z2Qc_inj_0 in Heq. apply Z2Qc_inj in Heq. lia.
Qed.

Lemma fsum_Fin (l : list Qc) : fsum (map Fin l) = Fin (Qsum l).
Proof.
  unfold fsum, Qsum.
  induction l as [|x l IH]; [reflexivity|].
  cbn [map foldr]. rewrite IH. reflexivity.
Qed.

Lemma fdiv_Fin (x y : Qc) : y <> 0 -> fdiv (Fin x) (Fin y) = Fin (x / y).
Proof. intros Hy. unfold fdiv. destruct (decide (y = 0)); [contradiction|reflexivity]. Qed.

Lemma mask_entry (p cut : Qc) :
  fmul (Fin p) (of_bool (flt (Fin p) (Fin cut)))
  = if bool_decide (p < cut) then Fin p else Fin 0.
Proof.
  cbn [flt of_bool fmul]. destruct (bool_decide (p < cut)).
  - now rewrite Qcmult_1_r.
  - now rewrite Qcmult_0_r.
Qed.

Lemma column_Fin (y : ndarray) (q : nat -> nat -> Qc) (j : nat) :
  (forall i, (i < shape0 y)%nat -> item y i j = Fin (q i j)) ->
  column y j = map Fin (map (fun i => q i j) (seq 0 (shape0 y))).
Proof.
  intros Hq. unfold column. rewrite map_map.
  apply map_ext_in. intros i Hi. apply in_seq in Hi. apply Hq. lia.
Qed.

Lemma mean0_lookup (y : ndarray) (j : nat) :
  (j < shape1 y)%nat ->
  mean0 y !! j = Some (fdiv (fsum (column y j)) (of_nat (shape0 y))).
Proof.
  intros Hj. unfold mean0.
  rewrite list_lookup_fmap, lookup_seq_lt by exact Hj. reflexivity.
Qed.

Lemma where_gt0_spec (v : list num) (j : nat) :
  j ∈ where_gt0 v <-> exists f, v !! j = Some f /\ fgt f (Fin 0) = true.
Proof.
  unfold where_gt0. rewrite list_elem_of_filter, elem_of_seq. split.
  - intros [Hgt [_ Hlt]]. simpl in Hlt.
    destruct (lookup_lt_is_Some_2 v j Hlt) as [f Hf].
    exists f. split; [exact Hf|].
    now rewrite (nth_lookup_Some v j NaN f Hf) in Hgt.
  - intros [f [Hf Hgt]]. split.
    + now rewrite (nth_lookup_Some v j NaN f Hf).
    + split; [lia|]. simpl. eapply lookup_lt_Some, Hf.
Qed.

Lemma last_index_None (j : nat) (idx : list nat) (k : nat) :
  j ∉ idx -> last_index j idx k = None.
Proof.
  revert k. induction idx as [|j' idx IH]; intros k Hj; [reflexivity|].
  cbn [last_index]. rewrite not_elem_of_cons in Hj. destruct Hj as [Hne Hj].
  rewrite (IH _ Hj). destruct (Nat.eqb_spec j j'); [contradiction|reflexivity].
Qed.

Lemma last_index_Some (j : nat) (idx : list nat) (k : nat) :
  j ∈ idx -> exists p, last_index j idx k = Some (k + p)%nat /\ idx !! p = Some j.
Proof.
  revert k. induction idx as [|j' idx IH]; intros k Hj.
  - now apply elem_of_nil in Hj.
  - cbn [last_index]. destruct (decide (j ∈ idx)) as [Hin|Hnin].
    + destruct (IH (S k) Hin) as [p [Hp Hl]]. rewrite Hp.
      exists (S p). split; [f_equal; lia|exact Hl].
    + rewrite (last_index_None _ _ _ Hnin).
      apply elem_of_cons in Hj. destruct Hj as [->|Hj]; [|contradiction].
      rewrite Nat.eqb_refl. exists 0%nat. split; [f_equal; lia|reflexivity].
Qed.

Lemma take_cols_ok (a : ndarray) (idx : list nat) :
  (forall j, j ∈ idx -> (j < shape1 a)%nat) ->
  take_cols a idx
  = Ok {| shape0 := shape0 a;
          shape1 := length idx;
          item i k := item a i (nth k idx 0%nat) |}.
Proof.
  intros Hidx. unfold take_cols.
  assert (forallb (fun j => (j <? shape1 a)%nat) idx = true) as ->; [|reflexivity].
  apply forallb_forall. intros j Hj. apply Nat.ltb_lt, Hidx.
  now apply list_elem_of_In.
Qed.

(** ** The classifier *)

Section ClassifierProps.

Context {Builder Model : Type}.
Variable super_fit :
  Classifier.partial Builder -> option Model -> ndarray -> ndarray ->
  option Model * result unit.
Variable super_predict_proba : option Model -> ndarray -> result ndarray.

Local Abbreviation dkc := (Classifier.DynamicKerasClassifier Builder Model).
Local Abbreviation fit := (Classifier.fit Builder Model super_fit).
Local Abbreviation predict_proba :=
  (Classifier.predict_proba Builder Model super_predict_proba).
Local Abbreviation _freqs := (Classifier._freqs Builder Model).
Local Abbreviation build_fn := (Classifier.build_fn Builder Model).
Local Abbreviation keywords := (Classifier.keywords Builder).

(** what [fit] leaves in [_freqs] whenever [X] has a row *)
Lemma fit_freqs (self : dkc) (X y : ndarray) :
  (0 < shape0 X)%nat ->
  _freqs (fst (fit self X y))
  = Some (map (fun f =>
                 fmul f (of_bool (flt f (Fin (Qc_of_Z 200 / nat2Qc (shape0 X))))))
              (mean0 y)).
Proof.
  intros Hn. unfold Classifier.fit.
  destruct (shape0 X) as [|n] eqn:HX; [lia|]. cbn [Classifier.build_fn Classifier.model].
  destruct (super_fit _ _ X y) as [m r]. reflexivity.
Qed.

(** what [fit] leaves in [build_fn], on every call *)
Lemma fit_build_fn (self : dkc) (X y : ndarray) :
  build_fn (fst (fit self X y))
  = Classifier.mk_partial Builder (build_fn self)
      (<["input_units" := shape1 X]> (<["output_units" := shape1 y]> ∅)).
Proof.
  unfold Classifier.fit. destruct (shape0 X) as [|n]; [reflexivity|].
  cbn [Classifier.build_fn Classifier.model].
  destruct (super_fit _ _ X y) as [m r]. reflexivity.
Qed.

(** [predict_proba] never assigns to the instance *)
Lemma predict_proba_state (self : dkc) (X : ndarray) :
  fst (predict_proba self X) = self.
Proof.
  unfold Classifier.predict_proba.
  destruct (super_predict_proba _ X) as [probas|e]; [|reflexivity].
  destruct (Classifier._freqs _ _ self) as [freqs|]; [|reflexivity].
  destruct (take_cols probas _); reflexivity.
Qed.

(** the blended matrix, entry by entry *)
Lemma predict_proba_entries (self : dkc) (X raw : ndarray) (freqs : list num) :
  _freqs self = Some freqs ->
  super_predict_proba (Classifier.model _ _ self) X = Ok raw ->
  (forall j f, freqs !! j = Some f -> fgt f (Fin 0) = true ->
               (j < shape1 raw)%nat) ->
  exists out,
    snd (predict_proba self X) = Ok out /\
    shape0 out = shape0 raw /\ shape1 out = shape1 raw /\
    (forall i j f, freqs !! j = Some f -> fgt f (Fin 0) = true ->
       item out i j = fdiv (fadd (item raw i j) f) (Fin 2)) /\
    (forall i j, (forall f, freqs !! j = Some f -> fgt f (Fin 0) = false) ->
       item out i j = item raw i j).
Proof.
  intros Hfreqs Hraw Hrange. unfold Classifier.predict_proba.
  rewrite Hraw, Hfreqs. rewrite take_cols_ok.
  2:{ intros j Hj. apply where_gt0_spec in Hj as [f [Hf Hgt]]. eauto. }
  cbn [snd shape0 shape1].
  eexists. split; [reflexivity|]. split; [reflexivity|]. split; [reflexivity|].
  split.
  - intros i j f Hf Hgt. cbn [assign_cols item].
    assert (j ∈ where_gt0 freqs) as Hin by (apply where_gt0_spec; eauto).
    destruct (last_index_Some j _ 0 Hin) as [p [-> Hp]]. cbn [Nat.add].
    rewrite (nth_lookup_Some _ _ 0%nat _ Hp).
    now rewrite (nth_lookup_Some _ _ NaN _ Hf).
  - intros i j Hle. cbn [assign_cols item].
    rewrite last_index_None; [reflexivity|].
    intros Hin. apply where_gt0_spec in Hin as [f [Hf Hgt]].
    rewrite (Hle f Hf) in Hgt. discriminate.
Qed.

(** C1: after [fit(X, y)] with n rows in [X], the stored mask has one entry
    per label; the entry of label j is the label's mean over the rows of
    [y] when that mean is strictly below 200/n and 0 otherwise; the mask is
    the same whatever the instance held before the call. *)
Theorem fit_rare_label_mask (self : dkc) (X y : ndarray) (q : nat -> nat -> Qc) :
  (0 < shape0 X)%nat ->
  (0 < shape0 y)%nat ->
  (forall i j, (i < shape0 y)%nat -> (j < shape1 y)%nat ->
               item y i j = Fin (q i j)) ->
  exists mask,
    _freqs (fst (fit self X y)) = Some mask /\
    length mask = shape1 y /\
    (forall j, (j < shape1 y)%nat ->
       let p := Qsum (map (fun i => q i j) (seq 0 (shape0 y)))
                / nat2Qc (shape0 y) in
       mask !! j
       = Some (if bool_decide (p < Qc_of_Z 200 / nat2Qc (shape0 X))
               then Fin p else Fin 0)) /\
    (forall other : dkc, _freqs (fst (fit other X y)) = Some mask).
Proof.
  intros Hn Hr Hq. eexists. split; [apply fit_freqs, Hn|].
  split; [|split].
  - unfold mean0. now rewrite !length_map, length_seq.
  - intros j Hj p. rewrite list_lookup_fmap, mean0_lookup by exact Hj.
    cbn [fmap option_fmap option_map].
    rewrite (column_Fin y q j) by (intros i Hi; now apply Hq).
    rewrite fsum_Fin. unfold of_nat.
    rewrite fdiv_Fin by now apply nat2Qc_nonzero.
    now rewrite mask_entry.
  - intros other. apply fit_freqs, Hn.
Qed.

(** C2: on an instance holding a mask, and for a raw model output with a
    column for every mask entry, [predict_proba] returns a matrix of the
    shape of the raw output whose entry for a label with mask value f > 0 is
    (raw + f) / 2 and whose entry for a label with mask value 0 is the raw
    entry. *)
Theorem predict_proba_blend (self : dkc) (X raw : ndarray) (freqs : list num) :
  _freqs self = Some freqs ->
  super_predict_proba (Classifier.model _ _ self) X = Ok raw ->
  (length freqs <= shape1 raw)%nat ->
  exists out,
    snd (predict_proba self X) = Ok out /\
    shape0 out = shape0 raw /\ shape1 out = shape1 raw /\
    forall i j f, (i < shape0 raw)%nat -> freqs !! j = Some f ->
      (fgt f (Fin 0) = true ->
       item out i j = fdiv (fadd (item raw i j) f) (Fin 2)) /\
      (f = Fin 0 -> item out i j = item raw i j).
Proof.
  intros Hfreqs Hraw Hw.
  destruct (predict_proba_entries self X raw freqs Hfreqs Hraw)
    as [out [Hout [H0 [H1 [Hpos Hzero]]]]].
  { intros j f Hf _. apply lookup_lt_Some in Hf. lia. }
  exists out. split; [exact Hout|]. split; [exact H0|]. split; [exact H1|].
  intros i j f _ Hf. split.
  - intros Hgt. now apply Hpos.
  - intros ->. apply Hzero. intros f' Hf'.
    rewrite Hf in Hf'. injection Hf' as <-. reflexivity.
Qed.

(** C7 (amended): on an instance that holds no mask, [predict_proba]
    raises: the exception of [super().predict_proba] when that call raises,
    and AttributeError, for the missing [_freqs] attribute, when it returns;
    no state is checked.  The call leaves the instance as it was; a [fit]
    call on data with at least one row is what stores a mask. *)
Theorem predict_proba_requires_fit (self : dkc) (X : ndarray) :
  _freqs self = None ->
  (exists e, snd (predict_proba self X) = Err e) /\
  (forall e, super_predict_proba (Classifier.model _ _ self) X = Err e ->
             snd (predict_proba self X) = Err e) /\
  (is_ok (super_predict_proba (Classifier.model _ _ self) X) = true ->
   snd (predict_proba self X) = Err AttributeError) /\
  fst (predict_proba self X) = self /\
  (forall X' y', (0 < shape0 X')%nat ->
                 is_Some (_freqs (fst (fit self X' y')))).
Proof.
  intros Hnone. split; [|split; [|split; [|split]]].
  - unfold Classifier.predict_proba.
    destruct (super_predict_proba _ X) as [probas|e]; [|eauto].
    rewrite Hnone. eauto.
  - intros e He. unfold Classifier.predict_proba. now rewrite He.
  - unfold Classifier.predict_proba.
    destruct (super_predict_proba _ X) as [probas|e]; [|discriminate].
    now rewrite Hnone.
  - apply predict_proba_state.
  - intros X' y' Hn. rewrite fit_freqs by exact Hn. eauto.
Qed.

(** C9 (amended): every [fit] call binds [input_units] to the width of its
    [X] and [output_units] to the label count of its [y], over whatever an
    earlier call had bound; the callable and the other keywords stay. *)
Theorem fit_rebinds_dimensions (self : dkc) (X y : ndarray) :
  let after := build_fn (fst (fit self X y)) in
  keywords after !! "input_units" = Some (shape1 X) /\
  keywords after !! "output_units" = Some (shape1 y) /\
  Classifier.func Builder after = Classifier.func Builder (build_fn self) /\
  forall k, k <> "input_units" -> k <> "output_units" ->
            keywords after !! k = keywords (build_fn self) !! k.
Proof.
  cbv zeta. rewrite fit_build_fn. unfold Classifier.mk_partial.
  cbn [Classifier.keywords Classifier.func].
  split; [|split; [|split]].
  - apply lookup_union_Some_l. now rewrite lookup_insert_eq.
  - apply lookup_union_Some_l.
    rewrite lookup_insert_ne by discriminate. now rewrite lookup_insert_eq.
  - reflexivity.
  - intros k Hi Ho. apply lookup_union_r.
    rewrite !lookup_insert_ne by congruence. apply lookup_empty.
Qed.

(** C3 (amended): with 4 rows and y = [[1,0],[1,0],[0,0],[0,1]] the cutoff
    is 200/4 = 50, so both labels are rare and the mask is [0.5, 0.25]; a
    raw output of 0.6 for label 2 on every row is blended to 0.425 on every
    row. *)
Theorem scenario_mask_and_blend (self : dkc) (X Xq raw : ndarray) :
  shape0 X = 4%nat ->
  super_predict_proba (Classifier.model _ _ (fit self X Demo.y4).1) Xq = Ok raw ->
  (2 <= shape1 raw)%nat ->
  (forall i, (i < shape0 raw)%nat -> item raw i 1 = Fin (Q2Qc (6 # 10))) ->
  _freqs (fit self X Demo.y4).1 = Some [Fin (Q2Qc (1 # 2)); Fin (Q2Qc (1 # 4))] /\
  exists out,
    (predict_proba (fit self X Demo.y4).1 Xq).2 = Ok out /\
    shape0 out = shape0 raw /\ shape1 out = shape1 raw /\
    forall i, (i < shape0 raw)%nat -> item out i 1 = Fin (Q2Qc (17 # 40)).
Proof.
  intros HX Hraw Hw H06.
  assert (_freqs (fit self X Demo.y4).1
          = Some [Fin (Q2Qc (1 # 2)); Fin (Q2Qc (1 # 4))]) as Hmask.
  { rewrite fit_freqs by lia. rewrite HX.
    decide_by_compute. }
  split; [exact Hmask|].
  destruct (predict_proba_entries _ Xq raw _ Hmask Hraw)
    as [out [Hout [H0 [H1 [Hpos _]]]]].
  { intros j f Hf _. apply lookup_lt_Some in Hf. cbn in Hf. lia. }
  exists out. split; [exact Hout|]. split; [exact H0|]. split; [exact H1|].
  intros i Hi. rewrite (Hpos i 1%nat (Fin (Q2Qc (1 # 4)))).
  - rewrite (H06 i Hi). decide_by_compute.
  - reflexivity.
  - vm_compute. reflexivity.
Qed.

End ClassifierProps.

(** ** Addition on [num] *)

Lemma fadd_comm (a b : num) : fadd a b = fadd b a.
Proof. destruct a, b; cbn; try reflexivity. now rewrite Qcplus_comm. Qed.

Lemma fadd_assoc (a b c : num) : fadd a (fadd b c) = fadd (fadd a b) c.
Proof. destruct a, b, c; cbn; try reflexivity. now rewrite Qcplus_assoc. Qed.

Lemma fadd_0_l (a : num) : fadd (Fin 0) a = a.
Proof. destruct a; cbn; try reflexivity. now rewrite Qcplus_0_l. Qed.

Lemma foldl_fadd (a : num) (l : list num) :
  foldl fadd a l = fadd a (fsum l).
Proof.
  unfold fsum. revert a. induction l as [|x l IH]; intros a; cbn [foldl foldr].
  - now rewrite fadd_comm, fadd_0_l.
  - now rewrite IH, fadd_assoc.
Qed.

Lemma fsum_perm (l1 l2 : list num) : l1 ≡ₚ l2 -> fsum l1 = fsum l2.
Proof.
  unfold fsum.
  induction 1 as [|x l1 l2 _ IH|x x' l|l1 l2 l3 _ IH1 _ IH2]; cbn [foldr].
  - reflexivity.
  - now rewrite IH.
  - rewrite !fadd_assoc. now rewrite (fadd_comm x' x).
  - now rewrite IH1.
Qed.

Lemma fsum_finite (l : list num) :
  Forall (fun x => is_finite x = true) l -> exists s, fsum l = Fin s.
Proof.
  unfold fsum. induction 1 as [|x l Hx _ [s IH]]; cbn [foldr]; [eauto|].
  rewrite IH. destruct x; try discriminate. cbn. eauto.
Qed.

(** dividing every term by a positive count divides the sum *)
Lemma fsum_fdiv (l : list num) (k : nat) :
  (1 <= k)%nat ->
  Forall (fun x => is_finite x = true) l ->
  fsum (map (fun x => fdiv x (of_nat k)) l) = fdiv (fsum l) (of_nat k).
Proof.
  intros Hk Hl. assert (nat2Qc k <> 0) as Hnz by (apply nat2Qc_nonzero; lia).
  unfold of_nat. induction Hl as [|x l Hx Hl IH].
  - unfold fsum. cbn [map foldr]. rewrite fdiv_Fin by exact Hnz.
    f_equal. now field.
  - change (fsum (map (fun x => fdiv x (Fin (nat2Qc k))) (x :: l)))
      with (fadd (fdiv x (Fin (nat2Qc k)))
                 (fsum (map (fun x => fdiv x (Fin (nat2Qc k))) l))).
    change (fsum (x :: l)) with (fadd x (fsum l)).
    rewrite IH. destruct (fsum_finite l Hl) as [s ->].
    destruct x as [q| | |]; try discriminate.
    cbn [fadd]. rewrite !fdiv_Fin by exact Hnz. cbn [fadd]. f_equal. now field.
Qed.

(** a sum divided by two different positive counts gives the same value
    only when the sum is zero *)
Lemma fdiv_counts (s : Qc) (n c : nat) :
  (1 <= n)%nat -> (1 <= c)%nat -> n <> c ->
  fdiv (Fin s) (of_nat n) = fdiv (Fin s) (of_nat c) <-> s = 0.
Proof.
  intros Hn Hc Hne.
  assert (nat2Qc n <> 0) as Hnz by (apply nat2Qc_nonzero; lia).
  assert (nat2Qc c <> 0) as Hcz by (apply nat2Qc_nonzero; lia).
  unfold of_nat. rewrite !fdiv_Fin by assumption. split.
  - intros Heq'.
    assert (s / nat2Qc n = s / nat2Qc c) as Heq by congruence.
    assert (s * (nat2Qc c - nat2Qc n) = 0) as Hprod.
    { transitivity ((s / nat2Qc n - s / nat2Qc c) * (nat2Qc n * nat2Qc c)).
      - now field.
      - rewrite Heq. ring. }
    apply Qcmult_integral in Hprod as [Hs|Hd]; [exact Hs|].
    exfalso. apply Hne.
    assert (nat2Qc c = nat2Qc n) as Hcn.
    { rewrite <- (Qcplus_0_r (nat2Qc n)), <- Hd. ring. }
    unfold nat2Qc in Hcn. apply Z2Qc_inj in Hcn. lia.
  - intros ->. f_equal. now field.
Qed.

(** ** The trace monad *)

Lemma natural_ret {A} (a : A) : natural (ret a).
Proof. intros t. unfold ret. cbn. now rewrite app_nil_r. Qed.

Lemma natural_lift {A} (r : result A) : natural (lift r).
Proof. intros t. unfold lift. cbn. now rewrite app_nil_r. Qed.

Lemma natural_emit (ev : event) : natural (emit ev).
Proof. intros t. reflexivity. Qed.

Lemma natural_bind {A B} (m : M A) (k : A -> M B) :
  natural m -> (forall a, natural (k a)) -> natural (bind m k).
Proof.
  intros Hm Hk t. unfold bind. rewrite (Hm t).
  destruct (m []) as [e1 [a|e]]; cbn [fst snd].
  - rewrite (Hk a (t ++ e1)), (Hk a e1). cbn [fst snd].
    now rewrite app_assoc.
  - reflexivity.
Qed.

Lemma snd_bind_emit {B} (ev ev' : event) (k : unit -> M B) :
  natural (k tt) -> snd (bind (emit ev) k []) = snd (bind (emit ev') k []).
Proof.
  intros Hk. unfold bind, emit. cbn [app].
  now rewrite (Hk [ev]), (Hk [ev']).
Qed.

Ltac natural_step :=
  first
    [ apply natural_ret
    | apply natural_lift
    | apply natural_emit
    | apply natural_bind; [|intros ?]
    | match goal with
      | |- natural (match ?x with _ => _ end) => destruct x
      | |- natural (let (_, _) := ?x in _) => destruct x
      end ].

(** ** cv_fit and fit *)

Section TrainProps.

Context {E : Type} `{Estimator E}.
Variable log_loss : list num -> list num -> result num.
Variable KFold : nat -> result splitter.
Variable big : Qc.
Variable float_add : num -> num -> num.
Variable float_div : num -> nat -> num.

Local Abbreviation run_fold := (Train.run_fold log_loss big).
Local Abbreviation cv_loop := (Train.cv_loop log_loss big float_add float_div).
Local Abbreviation cv_fit :=
  (Train.cv_fit log_loss KFold big float_add float_div).
Local Abbreviation fit := (Train.fit log_loss big).
Local Abbreviation fold_result := (Train.fold_result log_loss big).
Local Abbreviation fold_events := (Train.fold_events log_loss big).
Local Abbreviation fold_passes :=
  (Train.fold_passes log_loss big float_add float_div).
Local Abbreviation fold_preds := (Train.fold_preds log_loss big).
Local Abbreviation fold_calls := (Train.fold_calls log_loss big).
Local Abbreviation accumulate := (Train.accumulate float_add float_div).
Local Abbreviation no_rounding := (Train.no_rounding float_add float_div).
Local Abbreviation cv_or := (Train.cv_or KFold).

Lemma natural_call_fit (e : E) (X : table) (y : ndarray) :
  natural (Train.call_fit e X y).
Proof. unfold Train.call_fit. repeat natural_step. Qed.

Lemma natural_call_predict_proba (e : E) (X : table) :
  natural (Train.call_predict_proba e X).
Proof. unfold Train.call_predict_proba. repeat natural_step. Qed.

Lemma natural_call_log_loss (a b : list num) :
  natural (Train.call_log_loss log_loss a b).
Proof. unfold Train.call_log_loss. repeat natural_step. Qed.

Ltac natural_tac :=
  repeat first
    [ apply natural_call_fit
    | apply natural_call_predict_proba
    | apply natural_call_log_loss
    | natural_step ].

Lemma natural_run_fold clf X y X_test fn fold :
  natural (run_fold clf X y X_test fn fold).
Proof. unfold Train.run_fold. destruct fold as [trn val]. natural_tac. Qed.

Lemma run_fold_natural clf X y X_test fn fold t :
  run_fold clf X y X_test fn fold t
  = (t ++ fold_events clf X y X_test fn fold, fold_result clf X y X_test fold).
Proof.
  rewrite natural_run_fold. unfold Train.fold_events, Train.fold_result.
  f_equal. unfold Train.run_fold. destruct fold as [trn val].
  apply snd_bind_emit. natural_tac.
Qed.

Lemma bitem_div_scalar (p : ndarray) (n i j : nat) :
  bitem (div_scalar float_div p n) i j = float_div (bitem p i j) n.
Proof. reflexivity. Qed.

Lemma iadd_inv (a b c : ndarray) :
  iadd float_add a b = Ok c ->
  shape0 c = shape0 a /\ shape1 c = shape1 a /\
  forall i j, item c i j = float_add (item a i j) (bitem b i j).
Proof.
  unfold iadd. destruct (_ && _); [|discriminate].
  intros [= <-]. repeat split.
Qed.

Lemma iadd_shape_only (a a' b : ndarray) :
  shape0 a' = shape0 a -> shape1 a' = shape1 a ->
  is_ok (iadd float_add a b) = true -> exists c, iadd float_add a' b = Ok c.
Proof.
  unfold iadd. intros -> ->. destruct (_ && _); [eauto|discriminate].
Qed.

(** what a returning run of the loop has done *)
Lemma cv_loop_inv cv clf X y X_test folds :
  forall fn es lt lv tp t t' es' lt' lv' tp',
  cv_loop cv clf X y X_test folds fn (es, lt, lv, tp) t
  = (t', Ok (es', lt', lv', tp')) ->
  exists rs : list (E * num * num * ndarray),
    Forall2 (fun f r => fold_result clf X y X_test f = Ok r) folds rs /\
    es' = es ++ map (fun r => r.1.1.1) rs /\
    lt' = lt ++ map (fun r => r.1.1.2) rs /\
    lv' = lv ++ map (fun r => r.1.2) rs /\
    shape0 tp' = shape0 tp /\ shape1 tp' = shape1 tp /\
    (forall i j,
       item tp' i j
       = foldl float_add (item tp i j)
           (map (fun r => float_div (bitem r.2 i j) (n_splits cv)) rs)) /\
    t' = t ++ concat (imap (fun k f => fold_events clf X y X_test (fn + k) f)
                           folds).
Proof.
  induction folds as [|f folds IH]; intros fn es lt lv tp t t' es' lt' lv' tp'.
  - cbn [Train.cv_loop]. unfold ret. intros [= <- <- <- <- <-].
    exists []. cbn. rewrite !app_nil_r. repeat split. constructor.
  - cbn [Train.cv_loop]. unfold bind at 1. rewrite run_fold_natural.
    destruct (fold_result clf X y X_test f) as [[[[e a] b] p]|err] eqn:Hf;
      [|discriminate].
    unfold bind at 1, lift at 1.
    destruct (iadd float_add tp (div_scalar float_div p (n_splits cv)))
      as [tp1|err] eqn:Hadd; [|discriminate].
    intros Hloop. apply IH in Hloop.
    destruct Hloop as [rs [Hrs [-> [-> [-> [Hs0 [Hs1 [Hitem ->]]]]]]]].
    apply iadd_inv in Hadd. destruct Hadd as [Ha0 [Ha1 Haitem]].
    exists ((e, a, b, p) :: rs). cbn [map fst snd].
    rewrite <- !app_assoc. cbn [app].
    split; [constructor; assumption|].
    split; [reflexivity|]. split; [reflexivity|]. split; [reflexivity|].
    split; [congruence|]. split; [congruence|]. split.
    + intros i j. rewrite Hitem, Haitem. cbn [foldl].
      now rewrite bitem_div_scalar.
    + cbn [imap concat]. rewrite Nat.add_0_r. do 3 f_equal.
      apply imap_ext. intros k f' _. cbn. f_equal. lia.
Qed.

(** the loop returns when every fold does *)
Lemma cv_loop_progress cv clf X y X_test folds :
  forall fn es lt lv tp t,
  shape0 tp = length (rows X_test) -> shape1 tp = shape1 y ->
  forallb (fold_passes cv clf X y X_test) folds = true ->
  exists t' st', cv_loop cv clf X y X_test folds fn (es, lt, lv, tp) t
                 = (t', Ok st').
Proof.
  induction folds as [|f folds IH]; intros fn es lt lv tp t H0 H1 Hpass.
  - cbn [Train.cv_loop]. unfold ret. eauto.
  - cbn [forallb] in Hpass. apply andb_prop in Hpass as [Hf Hpass].
    cbn [Train.cv_loop]. unfold bind at 1. rewrite run_fold_natural.
    unfold Train.fold_passes in Hf.
    destruct (fold_result clf X y X_test f) as [[[[e a] b] p]|err];
      [|discriminate].
    unfold bind at 1, lift at 1.
    destruct (iadd_shape_only (zeros (length (rows X_test)) (shape1 y)) tp _
                H0 H1 Hf) as [tp1 Htp1].
    rewrite Htp1. apply iadd_inv in Htp1 as [Hs0 [Hs1 _]].
    apply IH; [congruence|congruence|exact Hpass].
Qed.

(** what a returning fold has computed and which calls it has made *)
Lemma run_fold_inv clf X y X_test fn trn val t t' e3 lt lv preds :
  run_fold clf X y X_test fn (trn, val) t = (t', Ok (e3, lt, lv, preds)) ->
  exists Xtr0 Xval ytr0 yval mask ytr e0 e1 ptr e2 pval p,
    iloc X trn = Ok Xtr0 /\ iloc X val = Ok Xval /\
    take_rows y trn = Ok ytr0 /\ take_rows y val = Ok yval /\
    ctl_mask Xtr0 = Ok mask /\
    mask_rows ytr0 (map negb mask) = Ok ytr /\
    est_fit (clone clf) (mask_table Xtr0 (map negb mask)) ytr = Ok e0 /\
    est_predict_proba e0 (mask_table Xtr0 (map negb mask)) = Ok (e1, ptr) /\
    log_loss (ravel ytr) (ravel (nan_to_num big ptr)) = Ok lt /\
    est_predict_proba e1 Xval = Ok (e2, pval) /\
    log_loss (ravel yval) (ravel (nan_to_num big pval)) = Ok lv /\
    est_predict_proba e2 X_test = Ok (e3, p) /\
    preds = nan_to_num big p /\
    t' = t ++ [EvPrint fn;
               EvFit (mask_table Xtr0 (map negb mask)) ytr;
               EvPredict (mask_table Xtr0 (map negb mask));
               EvLogLoss (ravel ytr) (ravel (nan_to_num big ptr));
               EvPredict Xval;
               EvLogLoss (ravel yval) (ravel (nan_to_num big pval));
               EvPredict X_test].
Proof.
  unfold Train.run_fold, Train.call_fit, Train.call_predict_proba,
    Train.call_log_loss, bind, lift, emit, ret.
  destruct (iloc X trn) as [Xtr0|] eqn:Hi1; [|discriminate].
  destruct (iloc X val) as [Xval|] eqn:Hi2; [|discriminate].
  destruct (take_rows y trn) as [ytr0|] eqn:Ht1; [|discriminate].
  destruct (take_rows y val) as [yval|] eqn:Ht2; [|discriminate].
  destruct (ctl_mask Xtr0) as [mask|] eqn:Hm; [|discriminate].
  destruct (mask_rows ytr0 (map negb mask)) as [ytr|] eqn:Hmr; [|discriminate].
  destruct (est_fit _ _ ytr) as [e0|] eqn:Hfit; [|discriminate].
  destruct (est_predict_proba e0 _) as [[e1 ptr]|] eqn:Hp1; [|discriminate].
  destruct (log_loss (ravel ytr) _) as [a|] eqn:Hl1; [|discriminate].
  destruct (est_predict_proba e1 Xval) as [[e2 pval]|] eqn:Hp2; [|discriminate].
  destruct (log_loss (ravel yval) _) as [b|] eqn:Hl2; [|discriminate].
  destruct (est_predict_proba e2 X_test) as [[e3' p]|] eqn:Hp3; [|discriminate].
  intros [= <- <- <- <- <-].
  exists Xtr0, Xval, ytr0, yval, mask, ytr, e0, e1, ptr, e2, pval, p.
  rewrite <- !app_assoc. cbn [app]. repeat split; assumption || reflexivity.
Qed.

(** what a returning single-shot [fit] has computed and called *)
Lemma fit_inv clf X y X_test t t' clf' lt lv tp :
  fit clf X y X_test t = (t', Ok (clf', lt, lv, tp)) ->
  exists mask ytr e0 e1 ptr p loss,
    ctl_mask X = Ok mask /\
    mask_rows y (map negb mask) = Ok ytr /\
    est_fit clf (mask_table X (map negb mask)) ytr = Ok e0 /\
    est_predict_proba e0 (mask_table X (map negb mask)) = Ok (e1, ptr) /\
    log_loss (ravel ytr) (ravel (nan_to_num big ptr)) = Ok loss /\
    est_predict_proba e1 X_test = Ok (clf', p) /\
    lt = [loss] /\ lv = [loss] /\ tp = nan_to_num big p /\
    t' = t ++ [EvFit (mask_table X (map negb mask)) ytr;
               EvPredict (mask_table X (map negb mask));
               EvLogLoss (ravel ytr) (ravel (nan_to_num big ptr));
               EvPredict X_test].
Proof.
  unfold Train.fit, Train.call_fit, Train.call_predict_proba,
    Train.call_log_loss, bind, lift, emit, ret.
  destruct (ctl_mask X) as [mask|] eqn:Hm; [|discriminate].
  destruct (mask_rows y (map negb mask)) as [ytr|] eqn:Hmr; [|discriminate].
  destruct (est_fit _ _ ytr) as [e0|] eqn:Hfit; [|discriminate].
  destruct (est_predict_proba e0 _) as [[e1 ptr]|] eqn:Hp1; [|discriminate].
  destruct (log_loss (ravel ytr) _) as [a|] eqn:Hl1; [|discriminate].
  destruct (est_predict_proba e1 X_test) as [[e3' p]|] eqn:Hp3; [|discriminate].
  intros [= <- <- <- <- <-].
  exists mask, ytr, e0, e1, ptr, p, a.
  rewrite <- !app_assoc. cbn [app]. repeat split; assumption || reflexivity.
Qed.

Lemma compress_no_ctl (l : list (list cell)) :
  forallb (fun r => negb (ctl_row r))
          (compress (map negb (map ctl_row l)) l) = true.
Proof.
  induction l as [|r l IH]; [reflexivity|].
  cbn [map compress]. destruct (ctl_row r) eqn:Hr; cbn [negb]; [exact IH|].
  cbn [forallb]. now rewrite Hr, IH.
Qed.

Lemma compress_filter (l : list (list cell)) :
  compress (map negb (map ctl_row l)) l
  = List.filter (fun r => negb (ctl_row r)) l.
Proof.
  induction l as [|r l IH]; [reflexivity|].
  cbn [map compress List.filter]. destruct (ctl_row r); cbn [negb]; now rewrite IH.
Qed.

Lemma ctl_mask_inv (X0 : table) (mask : list bool) :
  ctl_mask X0 = Ok mask -> mask = map ctl_row (rows X0).
Proof. unfold ctl_mask. destruct (ncols X0); [discriminate|]. now intros [= <-]. Qed.

Lemma mask_table_no_ctl (X0 : table) (mask : list bool) :
  ctl_mask X0 = Ok mask ->
  forallb (fun r => negb (ctl_row r)) (rows (mask_table X0 (map negb mask)))
  = true.
Proof. intros ->%ctl_mask_inv. apply compress_no_ctl. Qed.

Lemma ravel_finite (p : ndarray) :
  forallb is_finite (ravel (nan_to_num big p)) = true.
Proof.
  apply forallb_forall. intros a Ha. unfold ravel in Ha.
  apply in_flat_map in Ha as [i [_ Ha]]. apply in_map_iff in Ha as [j [<- _]].
  cbn. now destruct (item p i j).
Qed.

Lemma Forall_ok_snoc (t : list event) (ev : event) :
  Forall (fun ev => event_ok ev = true) t -> event_ok ev = true ->
  Forall (fun ev => event_ok ev = true) (t ++ [ev]).
Proof. intros Ht Hev. apply Forall_app. split; [exact Ht|]. now constructor. Qed.

Ltac events_ok_tac :=
  repeat first
    [ assumption
    | reflexivity
    | apply mask_table_no_ctl; assumption
    | apply ravel_finite
    | apply Forall_ok_snoc ].

(** every call made by a fold satisfies [event_ok], whether or not the fold
    returns *)
Lemma run_fold_events_ok clf X y X_test fn fold t :
  Forall (fun ev => event_ok ev = true) t ->
  Forall (fun ev => event_ok ev = true) (run_fold clf X y X_test fn fold t).1.
Proof.
  intros Ht. destruct fold as [trn val].
  unfold Train.run_fold, Train.call_fit, Train.call_predict_proba,
    Train.call_log_loss, bind, lift, emit, ret.
  destruct (iloc X trn) as [Xtr0|]; [|events_ok_tac].
  destruct (iloc X val) as [Xval|]; [|events_ok_tac].
  destruct (take_rows y trn) as [ytr0|]; [|events_ok_tac].
  destruct (take_rows y val) as [yval|]; [|events_ok_tac].
  destruct (ctl_mask Xtr0) as [mask|] eqn:Hm; [|events_ok_tac].
  destruct (mask_rows ytr0 (map negb mask)) as [ytr|]; [|events_ok_tac].
  destruct (est_fit _ _ ytr) as [e0|]; [|cbn [fst]; events_ok_tac].
  destruct (est_predict_proba e0 _) as [[e1 ptr]|]; [|cbn [fst]; events_ok_tac].
  destruct (log_loss (ravel ytr) _) as [a|]; [|cbn [fst]; events_ok_tac].
  destruct (est_predict_proba e1 Xval) as [[e2 pval]|]; [|cbn [fst]; events_ok_tac].
  destruct (log_loss (ravel yval) _) as [b|]; [|cbn [fst]; events_ok_tac].
  destruct (est_predict_proba e2 X_test) as [[e3 p]|]; cbn [fst]; events_ok_tac.
Qed.

Lemma cv_loop_events_ok cv clf X y X_test folds :
  forall fn st t,
  Forall (fun ev => event_ok ev = true) t ->
  Forall (fun ev => event_ok ev = true)
         (cv_loop cv clf X y X_test folds fn st t).1.
Proof.
  induction folds as [|f folds IH]; intros fn [[[es lt] lv] tp] t Ht.
  - exact Ht.
  - cbn [Train.cv_loop]. unfold bind at 1.
    pose proof (run_fold_events_ok clf X y X_test fn f t Ht) as Hf.
    destruct (run_fold clf X y X_test fn f t) as [t1 [[[[e a] b] p]|err]];
      [|exact Hf].
    unfold bind at 1, lift at 1.
    destruct (iadd float_add tp _) as [tp1|err]; [|exact Hf].
    apply IH. exact Hf.
Qed.

Lemma fit_events_ok clf X y X_test :
  Forall (fun ev => event_ok ev = true) (fit clf X y X_test []).1.
Proof.
  assert (Forall (fun ev => event_ok ev = true) []) as Ht by constructor.
  unfold Train.fit, Train.call_fit, Train.call_predict_proba,
    Train.call_log_loss, bind, lift, emit, ret.
  destruct (ctl_mask X) as [mask|] eqn:Hm; [|events_ok_tac].
  destruct (mask_rows y (map negb mask)) as [ytr|]; [|events_ok_tac].
  destruct (est_fit _ _ ytr) as [e0|]; [|cbn [fst]; events_ok_tac].
  destruct (est_predict_proba e0 _) as [[e1 ptr]|]; [|cbn [fst]; events_ok_tac].
  destruct (log_loss (ravel ytr) _) as [a|]; [|cbn [fst]; events_ok_tac].
  destruct (est_predict_proba e1 X_test) as [[e3 p]|]; cbn [fst]; events_ok_tac.
Qed.

Lemma iadd_ok_shape (a a' b : ndarray) :
  shape0 a' = shape0 a -> shape1 a' = shape1 a ->
  is_ok (iadd float_add a' b) = is_ok (iadd float_add a b).
Proof. unfold iadd. intros -> ->. now destruct (_ && _). Qed.

Lemma cv_loop_passes cv clf X y X_test folds :
  forall fn es lt lv tp t t' st',
  shape0 tp = length (rows X_test) -> shape1 tp = shape1 y ->
  cv_loop cv clf X y X_test folds fn (es, lt, lv, tp) t = (t', Ok st') ->
  forallb (fold_passes cv clf X y X_test) folds = true.
Proof.
  induction folds as [|f folds IH]; intros fn es lt lv tp t t' st' H0 H1;
    [reflexivity|].
  cbn [Train.cv_loop forallb]. unfold bind at 1. rewrite run_fold_natural.
  unfold Train.fold_passes at 1.
  destruct (fold_result clf X y X_test f) as [[[[e a] b] p]|err];
    [|discriminate].
  unfold bind at 1, lift at 1.
  rewrite <- (iadd_ok_shape (zeros (length (rows X_test)) (shape1 y)) tp _
               H0 H1).
  destruct (iadd float_add tp _) as [tp1|err] eqn:Hadd; [|discriminate].
  apply iadd_inv in Hadd as [Hs0 [Hs1 _]]. cbn [is_ok andb].
  apply IH; congruence.
Qed.

(** a fold that returns has made the calls of [fold_calls], and a fold
    whose calls return does *)
Lemma fold_result_calls clf X y X_test f r :
  fold_result clf X y X_test f = Ok r -> fold_calls clf X y X_test f r.
Proof.
  destruct f as [trn val], r as [[[e a] b] preds]. unfold Train.fold_result.
  destruct (run_fold clf X y X_test 0 (trn, val) []) as [t' r'] eqn:Hrun.
  cbn [snd]. intros ->. apply run_fold_inv in Hrun.
  destruct Hrun as (Xtr0 & Xval & ytr0 & yval & mask & ytr & e0 & e1 & ptr
                    & e2 & pval & p & Hrest).
  exists Xtr0, Xval, ytr0, yval, mask, ytr, e0, e1, ptr, e2, pval, p.
  cbn [fst snd]. intuition.
Qed.

Lemma fold_calls_result clf X y X_test f r :
  fold_calls clf X y X_test f r -> fold_result clf X y X_test f = Ok r.
Proof.
  destruct f as [trn val], r as [[[e a] b] preds].
  intros (Xtr0 & Xval & ytr0 & yval & mask & ytr & e0 & e1 & ptr & e2 & pval
          & p & H1 & H2 & H3 & H4 & H5 & H6 & H7 & H8 & H9 & H10 & H11 & H12
          & H13).
  cbn [fst snd] in *.
  unfold Train.fold_result, Train.run_fold, Train.call_fit,
    Train.call_predict_proba, Train.call_log_loss, bind, lift, emit, ret.
  rewrite H1, H2, H3, H4, H5, H6, H7, H8, H9, H10, H11, H12, H13.
  reflexivity.
Qed.

Lemma Forall2_fold_calls clf X y X_test folds rs :
  Forall2 (fun f r => fold_result clf X y X_test f = Ok r) folds rs ->
  Forall2 (fold_calls clf X y X_test) folds rs.
Proof.
  induction 1 as [|f r folds rs Hf _ IH]; constructor; [|exact IH].
  now apply fold_result_calls.
Qed.

(** the test prediction a fold contributes has been sanitized *)
Lemma fold_calls_finite clf X y X_test f r i j :
  fold_calls clf X y X_test f r -> is_finite (bitem r.2 i j) = true.
Proof.
  intros (Xtr0 & Xval & ytr0 & yval & mask & ytr & e0 & e1 & ptr & e2 & pval
          & p & Hrest).
  destruct Hrest as (_ & _ & _ & _ & _ & _ & _ & _ & _ & _ & _ & _ & ->).
  unfold bitem, nan_to_num. cbn [shape0 shape1 item].
  now destruct (item p _ _).
Qed.

Lemma fold_calls_items_finite clf X y X_test folds rs i j :
  Forall2 (fold_calls clf X y X_test) folds rs ->
  Forall (fun x => is_finite x = true)
         (map (fun r : E * num * num * ndarray => bitem r.2 i j) rs).
Proof.
  induction 1 as [|f r folds rs Hf _ IH]; cbn [map]; constructor.
  - eapply fold_calls_finite, Hf.
  - exact IH.
Qed.

(** the results of the folds are a function of the folds *)
Lemma fold_results_perm clf X y X_test folds folds' rs rs' :
  Forall2 (fun f r => fold_result clf X y X_test f = Ok r) folds rs ->
  Forall2 (fun f r => fold_result clf X y X_test f = Ok r) folds' rs' ->
  folds' ≡ₚ folds -> rs' ≡ₚ rs.
Proof.
  set (g := fun f => match fold_result clf X y X_test f with
                     | Ok r => Some r
                     | Err _ => None
                     end).
  assert (forall fs ps,
            Forall2 (fun f r => fold_result clf X y X_test f = Ok r) fs ps ->
            map g fs = map Some ps) as Hmap.
  { induction 1 as [|f r fs ps Hf _ IH]; [reflexivity|].
    cbn [map]. rewrite IH. unfold g at 1. now rewrite Hf. }
  intros Hrs Hrs' Hperm.
  apply (Permutation_map g) in Hperm.
  rewrite (Hmap _ _ Hrs), (Hmap _ _ Hrs') in Hperm.
  apply Permutation_map_inv in Hperm as [l3 [Heq Hperm]].
  assert (rs' = l3) as ->; [|now symmetry].
  clear -Heq. revert l3 Heq.
  induction rs' as [|r rs' IH]; intros [|r3 l3]; cbn [map];
    try discriminate; [reflexivity|].
  intros [= -> Heq]. f_equal. now apply IH.
Qed.

(** an accumulation that does not round is the exact sum of the exact
    quotients *)
Lemma accumulate_no_rounding (acc : num) (n : nat) (xs : list num) :
  no_rounding acc n xs ->
  foldl float_add acc (map (fun x => float_div x n) xs)
  = foldl fadd acc (map (fun x => fdiv x (of_nat n)) xs).
Proof.
  revert acc. induction xs as [|x xs IH]; intros acc; [reflexivity|].
  cbn [Train.no_rounding map foldl]. intros (Hd & Ha & Hrest).
  rewrite (IH _ Hrest), Ha, Hd. reflexivity.
Qed.

Lemma accumulate_exact (n : nat) (xs : list num) :
  no_rounding (Fin 0) n xs ->
  accumulate n xs = fsum (map (fun x => fdiv x (of_nat n)) xs).
Proof.
  intros Hx. unfold Train.accumulate.
  now rewrite (accumulate_no_rounding _ _ _ Hx), foldl_fadd, fadd_0_l.
Qed.

(** what a returning [cv_fit] has computed and called *)
Lemma cv_fit_inv clf X y X_test cv n t es lt lv tp :
  cv_fit clf X y X_test cv n [] = (t, Ok (es, lt, lv, tp)) ->
  exists (s : splitter) (rs : list (E * num * num * ndarray)),
    cv_or cv n = Ok s /\ split_raises s X y = None /\
    Forall2 (fun f r => fold_result clf X y X_test f = Ok r)
            (split s X y) rs /\
    es = map (fun r => r.1.1.1) rs /\
    lt = map (fun r => r.1.1.2) rs /\
    lv = map (fun r => r.1.2) rs /\
    shape0 tp = length (rows X_test) /\ shape1 tp = shape1 y /\
    (forall i j,
       item tp i j
       = accumulate (n_splits s) (map (fun r => bitem r.2 i j) rs)) /\
    t = concat (imap (fun k f => fold_events clf X y X_test k f)
                     (split s X y)).
Proof.
  unfold Train.cv_fit, bind at 1, lift at 1.
  destruct (Train.cv_or KFold cv n) as [s|e]; [|discriminate].
  unfold bind at 1.
  destruct (cv_loop s clf X y X_test (split s X y) 0
              ([], [], [], zeros (length (rows X_test)) (shape1 y)) [])
    as [t1 [[[[es1 lt1] lv1] tp1]|e]] eqn:Hloop; [|discriminate].
  destruct (split_raises s X y) as [e|] eqn:Hraises; [discriminate|].
  unfold ret. intros [= <- <- <- <- <-].
  apply cv_loop_inv in Hloop.
  destruct Hloop as [rs [Hrs [-> [-> [-> [Hs0 [Hs1 [Hitem ->]]]]]]]].
  exists s, rs. repeat split; try assumption || reflexivity.
  intros i j. rewrite Hitem. unfold Train.accumulate.
  now rewrite map_map.
Qed.

Lemma cv_fit_progress clf X y X_test cv n s :
  cv_or cv n = Ok s ->
  split_raises s X y = None ->
  forallb (fold_passes s clf X y X_test) (split s X y) = true ->
  exists t es lt lv tp,
    cv_fit clf X y X_test cv n [] = (t, Ok (es, lt, lv, tp)).
Proof.
  intros Hs Hraises Hpass. unfold Train.cv_fit, bind at 1, lift at 1.
  rewrite Hs. unfold bind at 1.
  destruct (cv_loop_progress s clf X y X_test _ 0 [] [] []
              (zeros (length (rows X_test)) (shape1 y)) []
              eq_refl eq_refl Hpass) as [t [[[[es lt] lv] tp] Hrun]].
  rewrite Hrun, Hraises. unfold ret. eauto 6.
Qed.

Lemma is_ok_inv {A} (r : result A) : is_ok r = true -> exists a, r = Ok a.
Proof. destruct r; [eauto|discriminate]. Qed.

Lemma Forall2_length_eq {A B} (R : A -> B -> Prop) (l : list A) (k : list B) :
  Forall2 R l k -> length k = length l.
Proof. intros HF. symmetry. eapply Forall2_length, HF. Qed.

Local Abbreviation fold_pred_item := (Train.fold_pred_item log_loss big).

Lemma cv_fit_passes clf X y X_test cv n t st :
  cv_fit clf X y X_test cv n [] = (t, Ok st) ->
  exists s,
    cv_or cv n = Ok s /\ split_raises s X y = None /\
    forallb (fold_passes s clf X y X_test) (split s X y) = true.
Proof.
  unfold Train.cv_fit, bind at 1, lift at 1.
  destruct (Train.cv_or KFold cv n) as [s|e]; [|discriminate].
  unfold bind at 1.
  destruct (cv_loop s clf X y X_test (split s X y) 0
              ([], [], [], zeros (length (rows X_test)) (shape1 y)) [])
    as [t1 [st1|e]] eqn:Hloop; [|discriminate].
  destruct (split_raises s X y) as [e|] eqn:Hraises; [discriminate|].
  intros _. exists s. split; [reflexivity|]. split; [exact Hraises|].
  destruct st1 as [[[es1 lt1] lv1] tp1].
  eapply cv_loop_passes; [| |exact Hloop]; reflexivity.
Qed.

Lemma fold_passes_n_splits cv cv' clf X y X_test f :
  n_splits cv' = n_splits cv ->
  fold_passes cv' clf X y X_test f = fold_passes cv clf X y X_test f.
Proof. unfold Train.fold_passes. now intros ->. Qed.

(** the entry that the accumulation reads from a returning fold is finite *)
Lemma fold_pred_item_finite clf X y X_test f r i j :
  fold_result clf X y X_test f = Ok r ->
  is_finite (fold_pred_item clf X y X_test f i j) = true.
Proof.
  intros Hf. unfold Train.fold_pred_item, Train.fold_preds. rewrite Hf.
  destruct r as [[[e a] b] preds].
  apply (fold_calls_finite clf X y X_test f (e, a, b, preds) i j).
  now apply fold_result_calls.
Qed.

(** C4 (amended): in a run over k >= 1 folds whose splitter declares k
    splits, every entry of the returned test-prediction matrix is the float
    accumulation, from 0 and in the order the folds are processed, of each
    fold's sanitized test prediction divided by k, that prediction being
    what the fold's estimator returned for [X_test]; where no division and
    no addition of the accumulation rounds, the entry is the arithmetic
    mean of the k fold predictions; a splitter yielding the same folds in
    another order runs the same folds, accumulates in its own order, and
    returns the same entry wherever neither accumulation rounds. *)
Theorem cv_fit_test_preds_accumulated clf X y X_test cv n s k :
  cv_or cv n = Ok s ->
  n_splits s = k ->
  length (split s X y) = k ->
  (1 <= k)%nat ->
  is_ok (cv_fit clf X y X_test cv n []).2 = true ->
  exists t es lt lv tp rs,
    cv_fit clf X y X_test cv n [] = (t, Ok (es, lt, lv, tp)) /\
    shape0 tp = length (rows X_test) /\ shape1 tp = shape1 y /\
    Forall2 (fold_calls clf X y X_test) (split s X y) rs /\
    (forall i j,
       item tp i j = accumulate k (map (fun r => bitem r.2 i j) rs) /\
       (no_rounding (Fin 0) k (map (fun r => bitem r.2 i j) rs) ->
        item tp i j
        = fdiv (fsum (map (fun r => bitem r.2 i j) rs)) (of_nat k))) /\
    (forall cv',
       n_splits cv' = k ->
       split cv' X y ≡ₚ split s X y ->
       split_raises cv' X y = None ->
       exists t' es' lt' lv' tp' rs',
         cv_fit clf X y X_test (Some cv') n [] = (t', Ok (es', lt', lv', tp')) /\
         Forall2 (fold_calls clf X y X_test) (split cv' X y) rs' /\
         rs' ≡ₚ rs /\
         forall i j,
           item tp' i j = accumulate k (map (fun r => bitem r.2 i j) rs') /\
           (no_rounding (Fin 0) k (map (fun r => bitem r.2 i j) rs) ->
            no_rounding (Fin 0) k (map (fun r => bitem r.2 i j) rs') ->
            item tp' i j = item tp i j)).
Proof.
  intros Hs Hn Hlen Hk Hok.
  destruct (cv_fit clf X y X_test cv n []) as [t r] eqn:Hrun.
  cbn [snd] in Hok. apply is_ok_inv in Hok as [[[[es lt] lv] tp] ->].
  destruct (cv_fit_passes _ _ _ _ _ _ _ _ Hrun) as [s0 [Hs0 [_ Hpass]]].
  assert (s0 = s) as -> by congruence. clear Hs0.
  destruct (cv_fit_inv _ _ _ _ _ _ _ _ _ _ _ Hrun)
    as [s0 [rs [Hs0 [_ [Hrs [_ [_ [_ [Hsh0 [Hsh1 [Hitem _]]]]]]]]]]].
  assert (s0 = s) as -> by congruence. clear Hs0.
  rewrite Hn in Hitem.
  pose proof (Forall2_fold_calls _ _ _ _ _ _ Hrs) as Hcalls.
  assert (forall (ps : list (E * num * num * ndarray)) fs i j,
            Forall2 (fold_calls clf X y X_test) fs ps ->
            no_rounding (Fin 0) k (map (fun r => bitem r.2 i j) ps) ->
            accumulate k (map (fun r => bitem r.2 i j) ps)
            = fdiv (fsum (map (fun r => bitem r.2 i j) ps)) (of_nat k))
    as Hmean.
  { intros ps fs i j Hps Hx. rewrite (accumulate_exact _ _ Hx).
    apply fsum_fdiv; [exact Hk|].
    eapply fold_calls_items_finite, Hps. }
  exists t, es, lt, lv, tp, rs. split; [reflexivity|].
  split; [exact Hsh0|]. split; [exact Hsh1|]. split; [exact Hcalls|]. split.
  - intros i j. split; [apply Hitem|]. intros Hx.
    rewrite Hitem. eapply Hmean; eassumption.
  - intros cv' Hn' Hperm Hraises'.
    assert (forallb (fold_passes cv' clf X y X_test) (split cv' X y) = true)
      as Hpass'.
    { apply forallb_forall. intros f Hf.
      rewrite (fold_passes_n_splits s) by congruence.
      rewrite forallb_forall in Hpass. apply Hpass.
      eapply Permutation_in; [exact Hperm|exact Hf]. }
    destruct (cv_fit_progress clf X y X_test (Some cv') n cv' eq_refl
                Hraises' Hpass') as [t' [es' [lt' [lv' [tp' Hrun']]]]].
    destruct (cv_fit_inv _ _ _ _ _ _ _ _ _ _ _ Hrun')
      as [s1 [rs' [Hs1 [_ [Hrs' [_ [_ [_ [_ [_ [Hitem' _]]]]]]]]]]].
    cbn [Train.cv_or] in Hs1. injection Hs1 as <-. rewrite Hn' in Hitem'.
    pose proof (Forall2_fold_calls _ _ _ _ _ _ Hrs') as Hcalls'.
    pose proof (fold_results_perm _ _ _ _ _ _ _ _ Hrs Hrs' Hperm) as Hrperm.
    exists t', es', lt', lv', tp', rs'. split; [exact Hrun'|].
    split; [exact Hcalls'|]. split; [exact Hrperm|].
    intros i j. split; [apply Hitem'|]. intros Hx Hx'.
    rewrite Hitem, Hitem'.
    rewrite (Hmean _ _ _ _ Hcalls Hx), (Hmean _ _ _ _ Hcalls' Hx').
    f_equal. apply fsum_perm. now apply Permutation_map.
Qed.

(** C10 (amended): every entry of the returned test-prediction matrix is the
    float accumulation, from 0 and in the order of iteration, over the folds
    that [cv.split] yields, of the fold's sanitized test prediction divided
    by [cv.n_splits], not by the number of folds; when that number differs
    from [cv.n_splits] (both at least 1) and no division and no addition of
    the accumulation rounds, the entry equals the mean of the fold
    predictions exactly when those predictions sum to zero. *)
Theorem cv_fit_divides_by_n_splits clf X y X_test cv n :
  is_ok (cv_fit clf X y X_test cv n []).2 = true ->
  exists s t es lt lv tp rs,
    cv_or cv n = Ok s /\
    cv_fit clf X y X_test cv n [] = (t, Ok (es, lt, lv, tp)) /\
    Forall2 (fold_calls clf X y X_test) (split s X y) rs /\
    (forall i j,
       item tp i j
       = accumulate (n_splits s) (map (fun r => bitem r.2 i j) rs)) /\
    ((1 <= n_splits s)%nat ->
     (1 <= length (split s X y))%nat ->
     length (split s X y) <> n_splits s ->
     forall i j,
       no_rounding (Fin 0) (n_splits s) (map (fun r => bitem r.2 i j) rs) ->
       item tp i j
       = fdiv (fsum (map (fun r => bitem r.2 i j) rs))
              (of_nat (length (split s X y)))
       <-> fsum (map (fun r => bitem r.2 i j) rs) = Fin 0).
Proof.
  intros Hok.
  destruct (cv_fit clf X y X_test cv n []) as [t r] eqn:Hrun.
  cbn [snd] in Hok. apply is_ok_inv in Hok as [[[[es lt] lv] tp] ->].
  destruct (cv_fit_inv _ _ _ _ _ _ _ _ _ _ _ Hrun)
    as [s [rs [Hs [_ [Hrs [_ [_ [_ [_ [_ [Hitem _]]]]]]]]]]].
  pose proof (Forall2_fold_calls _ _ _ _ _ _ Hrs) as Hcalls.
  exists s, t, es, lt, lv, tp, rs. split; [exact Hs|].
  split; [reflexivity|]. split; [exact Hcalls|]. split; [exact Hitem|].
  intros Hn Hc Hne i j Hx. rewrite Hitem, (accumulate_exact _ _ Hx).
  pose proof (fold_calls_items_finite _ _ _ _ _ _ i j Hcalls) as Hfin.
  rewrite (fsum_fdiv _ _ Hn Hfin).
  destruct (fsum_finite _ Hfin) as [q Hq]. rewrite Hq.
  rewrite (fdiv_counts q _ _ Hn Hc) by congruence.
  split; [now intros ->|congruence].
Qed.

Lemma cv_fit_events_ok clf X y X_test cv n :
  Forall (fun ev => event_ok ev = true) (cv_fit clf X y X_test cv n []).1.
Proof.
  unfold Train.cv_fit, bind at 1, lift at 1.
  destruct (Train.cv_or KFold cv n) as [s|e]; [|constructor].
  unfold bind at 1.
  pose proof (cv_loop_events_ok s clf X y X_test (split s X y) 0
                ([], [], [], zeros (length (rows X_test)) (shape1 y)) []
                ltac:(constructor)) as Hloop.
  destruct (cv_loop s clf X y X_test (split s X y) 0 _ [])
    as [t1 [st1|e]]; [|exact Hloop].
  destruct (split_raises s X y); exact Hloop.
Qed.

Lemma fit_event_no_ctl (t : list event) (Xt : table) (yt : ndarray) :
  Forall (fun ev => event_ok ev = true) t ->
  In (EvFit Xt yt) t ->
  Forall (fun r => ctl_row r = false) (rows Xt).
Proof.
  intros Ht Hin. rewrite Forall_forall in Ht.
  apply list_elem_of_In, Ht in Hin. cbn [event_ok] in Hin.
  rewrite forallb_forall in Hin. apply Forall_forall. intros r Hr.
  apply list_elem_of_In, Hin in Hr. now apply negb_true_iff.
Qed.

Lemma loss_event_finite (t : list event) (yt yp : list num) :
  Forall (fun ev => event_ok ev = true) t ->
  In (EvLogLoss yt yp) t ->
  Forall (fun a => is_finite a = true) yp.
Proof.
  intros Ht Hin. rewrite Forall_forall in Ht.
  apply list_elem_of_In, Ht in Hin. cbn [event_ok] in Hin.
  rewrite forallb_forall in Hin. apply Forall_forall. intros a Ha.
  now apply list_elem_of_In, Hin in Ha.
Qed.

Lemma norm_indices_length (n : nat) (idx : list Z) (ks : list nat) :
  norm_indices n idx = Ok ks -> length ks = length idx.
Proof.
  revert ks. induction idx as [|i idx IH]; intros ks; cbn [norm_indices].
  - now intros [= <-].
  - destruct (norm_index n i); [|discriminate].
    destruct (norm_indices n idx) as [ks'|]; [|discriminate].
    intros [= <-]. cbn. f_equal. now apply IH.
Qed.

Lemma iloc_length (X0 Xs : table) (idx : list Z) :
  iloc X0 idx = Ok Xs -> length (rows Xs) = length idx.
Proof.
  unfold iloc. destruct (norm_indices _ idx) as [ks|] eqn:Hks; [|discriminate].
  intros [= <-]. cbn [rows]. rewrite length_map.
  eapply norm_indices_length, Hks.
Qed.

(** the calls of the fold at position [k], inside the trace of a returning
    run *)
Lemma cv_fit_fold_segment clf X y X_test cv n s t st k trn val :
  cv_fit clf X y X_test cv n [] = (t, Ok st) ->
  cv_or cv n = Ok s ->
  split s X y !! k = Some (trn, val) ->
  exists r pre post,
    run_fold clf X y X_test k (trn, val) []
    = (fold_events clf X y X_test k (trn, val), Ok r) /\
    t = pre ++ fold_events clf X y X_test k (trn, val) ++ post.
Proof.
  destruct st as [[[es lt] lv] tp]. intros Hrun Hs Hk.
  apply cv_fit_inv in Hrun.
  destruct Hrun as [s0 [rs [Hs0 [_ [Hrs [_ [_ [_ [_ [_ [_ ->]]]]]]]]]]].
  assert (s0 = s) as -> by congruence.
  destruct (Forall2_lookup_l _ _ _ _ _ Hrs Hk) as [r [_ Hr]].
  exists r. rewrite run_fold_natural, Hr.
  rewrite <- (take_drop_middle _ _ _ Hk).
  rewrite imap_app, concat_app. cbn [imap concat].
  rewrite length_take_le by (apply Nat.lt_le_incl; eapply lookup_lt_Some, Hk).
  rewrite Nat.add_0_r. eauto.
Qed.

(** C5 (amended): in every fold of [cv_fit] and in single-shot [fit] the
    estimator's [fit] call receives no control row, and the train loss is
    computed on that same filtered set; in [cv_fit] the validation loss is
    computed on all rows at the fold's validation positions, and in both
    entry points the test prediction on all of [X_test]; single-shot [fit]
    reports its train loss, computed on the filtered rows, as its
    validation loss as well. *)
Theorem control_rows_filtered clf X y X_test cv n :
  (forall Xt yt,
     In (EvFit Xt yt) (cv_fit clf X y X_test cv n []).1 ->
     Forall (fun r => ctl_row r = false) (rows Xt)) /\
  (forall Xt yt,
     In (EvFit Xt yt) (fit clf X y X_test []).1 ->
     Forall (fun r => ctl_row r = false) (rows Xt)) /\
  (is_ok (cv_fit clf X y X_test cv n []).2 = true ->
   forall s k trn val,
     cv_or cv n = Ok s ->
     split s X y !! k = Some (trn, val) ->
     exists Xtr ytr Xval yval ptr pval pre post,
       (cv_fit clf X y X_test cv n []).1
       = pre ++ [EvPrint k;
                 EvFit Xtr ytr; EvPredict Xtr; EvLogLoss (ravel ytr) ptr;
                 EvPredict Xval; EvLogLoss (ravel yval) pval;
                 EvPredict X_test] ++ post /\
       Forall (fun r => ctl_row r = false) (rows Xtr) /\
       iloc X val = Ok Xval /\ length (rows Xval) = length val /\
       take_rows y val = Ok yval) /\
  (is_ok (fit clf X y X_test []).2 = true ->
   exists ytr ptr loss clf' tp,
     let Xtr := {| ncols := ncols X;
                   rows := List.filter (fun r => negb (ctl_row r)) (rows X) |} in
     fit clf X y X_test []
     = ([EvFit Xtr ytr; EvPredict Xtr; EvLogLoss (ravel ytr) ptr;
         EvPredict X_test],
        Ok (clf', [loss], [loss], tp)) /\
     log_loss (ravel ytr) ptr = Ok loss).
Proof.
  split; [|split; [|split]].
  - intros Xt yt. apply fit_event_no_ctl, cv_fit_events_ok.
  - intros Xt yt. apply fit_event_no_ctl, fit_events_ok.
  - intros Hok s k trn val Hs Hk.
    destruct (cv_fit clf X y X_test cv n []) as [t r] eqn:Hrun.
    cbn [snd] in Hok. apply is_ok_inv in Hok as [st ->]. cbn [fst].
    destruct (cv_fit_fold_segment _ _ _ _ _ _ _ _ _ _ _ _ Hrun Hs Hk)
      as [[[[e a] b] p] [pre [post [Hfold ->]]]].
    apply run_fold_inv in Hfold.
    destruct Hfold as (Xtr0 & Xval & ytr0 & yval & mask & ytr & e0 & e1 & ptr
                       & e2 & pval & p' & Hrest).
    destruct Hrest as (_ & Hval & _ & Hyval & Hmask & _ & _ & _ & _ & _ & _
                       & _ & _ & Hev).
    cbn [app] in Hev. rewrite Hev.
    exists (mask_table Xtr0 (map negb mask)), ytr, Xval, yval.
    exists (ravel (nan_to_num big ptr)), (ravel (nan_to_num big pval)).
    exists pre, post. split; [reflexivity|]. split; [|split; [|split]].
    + apply Forall_forall. intros r Hr.
      pose proof (mask_table_no_ctl _ _ Hmask) as Hno.
      rewrite forallb_forall in Hno. apply negb_true_iff, Hno.
      now apply list_elem_of_In.
    + exact Hval.
    + eapply iloc_length, Hval.
    + exact Hyval.
  - intros Hok.
    destruct (fit clf X y X_test []) as [t r] eqn:Hrun.
    cbn [snd] in Hok. apply is_ok_inv in Hok as [[[[clf' lt] lv] tp] ->].
    apply fit_inv in Hrun.
    destruct Hrun as (mask & ytr & e0 & e1 & ptr & p & loss & Hmask & _ & _
                      & _ & Hloss & _ & -> & -> & _ & ->).
    exists ytr, (ravel (nan_to_num big ptr)), loss, clf', tp.
    cbv zeta. split; [|exact Hloss]. cbn [app].
    apply ctl_mask_inv in Hmask. subst mask.
    unfold mask_table. now rewrite compress_filter.
Qed.

(** C8 (amended): [np.nan_to_num] replaces NaN by 0, +Inf by the largest
    finite value and -Inf by its negative, and keeps finite entries; every
    [log_loss] call of [cv_fit] and of [fit] receives finite predictions
    only; the test matrix returned by [fit] has finite entries only; and in
    a returning [cv_fit] every fold's test prediction is finite when it
    enters the accumulation. *)
Theorem predictions_sanitized clf X y X_test cv n :
  (nan_to_num1 big NaN = Fin 0 /\ nan_to_num1 big PInf = Fin big /\
   nan_to_num1 big NInf = Fin (- big) /\
   forall q, nan_to_num1 big (Fin q) = Fin q) /\
  (forall yt yp,
     In (EvLogLoss yt yp) (cv_fit clf X y X_test cv n []).1 ->
     Forall (fun a => is_finite a = true) yp) /\
  (forall yt yp,
     In (EvLogLoss yt yp) (fit clf X y X_test []).1 ->
     Forall (fun a => is_finite a = true) yp) /\
  (forall t es lt lv tp,
     cv_fit clf X y X_test cv n [] = (t, Ok (es, lt, lv, tp)) ->
     exists s rs,
       cv_or cv n = Ok s /\
       Forall2 (fold_calls clf X y X_test) (split s X y) rs /\
       (forall i j,
          item tp i j
          = accumulate (n_splits s) (map (fun r => bitem r.2 i j) rs)) /\
       forall r i j, In r rs -> is_finite (item r.2 i j) = true) /\
  (forall t clf' lt lv tp,
     fit clf X y X_test [] = (t, Ok (clf', lt, lv, tp)) ->
     forall i j, is_finite (item tp i j) = true).
Proof.
  split; [repeat split|]. split; [|split; [|split]].
  - intros yt yp. apply loss_event_finite, cv_fit_events_ok.
  - intros yt yp. apply loss_event_finite, fit_events_ok.
  - intros t es lt lv tp Hrun. apply cv_fit_inv in Hrun.
    destruct Hrun as [s [rs [Hs [_ [Hrs [_ [_ [_ [_ [_ [Hitem _]]]]]]]]]]].
    pose proof (Forall2_fold_calls _ _ _ _ _ _ Hrs) as Hcalls.
    exists s, rs. split; [exact Hs|]. split; [exact Hcalls|].
    split; [exact Hitem|].
    intros r i j Hr. clear Hitem Hrs.
    induction Hcalls as [|f r' folds rs Hf _ IH]; [destruct Hr|].
    destruct Hr as [->|Hr]; [|now apply IH].
    destruct Hf as (Xtr0 & Xval & ytr0 & yval & mask & ytr & e0 & e1 & ptr
                    & e2 & pval & p & Hrest).
    destruct Hrest as (_ & _ & _ & _ & _ & _ & _ & _ & _ & _ & _ & _ & ->).
    cbn [nan_to_num item]. now destruct (item p i j).
  - intros t clf' lt lv tp Hrun i j. apply fit_inv in Hrun.
    destruct Hrun as (mask & ytr & e0 & e1 & ptr & p & loss & _ & _ & _
                      & _ & _ & _ & _ & _ & -> & _).
    cbn [nan_to_num item]. now destruct (item p i j).
Qed.

End TrainProps.

(** ** cv_fit with the default splitter *)

Lemma folds_from_length (n start : nat) (sizes : list nat) :
  length (Sklearn.folds_from n start sizes) = length sizes.
Proof.
  revert start. induction sizes as [|size sizes IH]; intros start;
    [reflexivity|].
  cbn [Sklearn.folds_from length]. now rewrite IH.
Qed.

Lemma folds_length (n k : nat) : length (Sklearn.folds n k) = k.
Proof.
  unfold Sklearn.folds, Sklearn.fold_sizes.
  now rewrite folds_from_length, length_map, length_seq.
Qed.

Lemma split_ok_true (k : nat) (X : table) (y : ndarray) :
  (k <= length (rows X))%nat -> length (rows X) = shape0 y ->
  Sklearn.split_ok k X y = true.
Proof.
  intros Hk Hy. unfold Sklearn.split_ok. apply andb_true_intro. split.
  - now apply Nat.eqb_eq.
  - now apply Nat.leb_le.
Qed.

Lemma split_ok_false (k : nat) (X : table) (y : ndarray) :
  (length (rows X) < k)%nat \/ length (rows X) <> shape0 y ->
  Sklearn.split_ok k X y = false.
Proof.
  intros Hbad. unfold Sklearn.split_ok. apply andb_false_iff.
  destruct Hbad as [Hk|Hy].
  - right. apply Nat.leb_gt. exact Hk.
  - left. now apply Nat.eqb_neq.
Qed.

Lemma iadd_div_scalar_ok (float_add : num -> num -> num)
    (float_div : num -> nat -> num) (a p : ndarray) (n : nat) :
  is_ok (iadd float_add a (div_scalar float_div p n))
  = is_ok (iadd float_add a p).
Proof.
  unfold iadd. cbn [div_scalar shape0 shape1]. now destruct (_ && _).
Qed.

Section KFoldProps.

Context {E : Type} `{Estimator E}.
Variable log_loss : list num -> list num -> result num.
Variable big : Qc.
Variable float_add : num -> num -> num.
Variable float_div : num -> nat -> num.

Local Abbreviation cv_fit :=
  (Train.cv_fit log_loss Sklearn.KFold big float_add float_div).
Local Abbreviation fold_calls := (Train.fold_calls log_loss big).

(** C6 (amended): with the default splitter, [cv_fit] raises ValueError and
    calls nothing when [n_splits < 2], when [X] has fewer than [n_splits]
    rows, or when [X] and [y] differ in length.  For 2 <= k <= rows,
    [KFold(k)] yields k folds; the run returns when in every fold the
    collaborator calls return and the test prediction can be added to the
    accumulated matrix; and every run that returns hands back k estimators,
    k train losses and k validation losses, the i-th of each being what the
    calls of the i-th fold gave: the clone of the template after its [fit]
    on the fold's training rows and its three [predict_proba] calls, and
    the results of the fold's two [log_loss] calls. *)
Theorem cv_fit_returns_k clf X y X_test k :
  ((k < 2)%nat \/ (length (rows X) < k)%nat \/ length (rows X) <> shape0 y ->
   cv_fit clf X y X_test None k [] = ([], Err ValueError)) /\
  ((2 <= k <= length (rows X))%nat ->
   length (rows X) = shape0 y ->
   length (Sklearn.folds (length (rows X)) k) = k /\
   ((forall f, In f (Sklearn.folds (length (rows X)) k) ->
       exists r, fold_calls clf X y X_test f r /\
                 is_ok (iadd float_add
                          (zeros (length (rows X_test)) (shape1 y)) r.2)
                 = true) ->
    is_ok (cv_fit clf X y X_test None k []).2 = true) /\
   (forall t es lt lv tp,
      cv_fit clf X y X_test None k [] = (t, Ok (es, lt, lv, tp)) ->
      length es = k /\ length lt = k /\ length lv = k /\
      forall i f,
        Sklearn.folds (length (rows X)) k !! i = Some f ->
        exists e a b p,
          es !! i = Some e /\ lt !! i = Some a /\ lv !! i = Some b /\
          fold_calls clf X y X_test f (e, a, b, p))).
Proof.
  split.
  - intros Hbad. unfold Train.cv_fit, bind at 1, lift at 1.
    cbn [Train.cv_or]. unfold Sklearn.KFold.
    destruct (Nat.ltb_spec k 2) as [Hk|Hk]; [reflexivity|].
    destruct Hbad as [Hbad|Hbad]; [lia|].
    unfold bind at 1. cbn [Sklearn.kfold split split_raises].
    rewrite (split_ok_false _ _ _ Hbad). reflexivity.
  - intros Hk Hy.
    assert (Train.cv_or Sklearn.KFold None k = Ok (Sklearn.kfold k)) as Hs.
    { cbn [Train.cv_or]. unfold Sklearn.KFold.
      destruct (Nat.ltb_spec k 2); [lia|reflexivity]. }
    assert (Sklearn.split_ok k X y = true) as Hok
      by (apply split_ok_true; [lia|exact Hy]).
    assert (split (Sklearn.kfold k) X y = Sklearn.folds (length (rows X)) k)
      as Hsplit by (cbn [Sklearn.kfold split]; now rewrite Hok).
    split; [apply folds_length|]. split.
    + intros Hall.
      destruct (cv_fit_progress log_loss Sklearn.KFold big float_add float_div
                  clf X y X_test None k (Sklearn.kfold k) Hs)
        as (t & es & lt & lv & tp & Hrun).
      * cbn [Sklearn.kfold split_raises]. now rewrite Hok.
      * rewrite Hsplit. apply forallb_forall. intros f Hf.
        destruct (Hall f Hf) as [[[[e a] b] p] [Hcalls Hshape]].
        unfold Train.fold_passes.
        rewrite (fold_calls_result log_loss big _ _ _ _ _ _ Hcalls).
        rewrite iadd_div_scalar_ok. exact Hshape.
      * now rewrite Hrun.
    + intros t es lt lv tp Hrun.
      destruct (cv_fit_inv log_loss Sklearn.KFold big float_add float_div
                  _ _ _ _ _ _ _ _ _ _ _ Hrun)
        as [s [rs [Hs' [_ [Hrs [-> [-> [-> _]]]]]]]].
      assert (s = Sklearn.kfold k) as -> by congruence.
      rewrite Hsplit in Hrs.
      rewrite !length_map, (Forall2_length_eq _ _ _ Hrs), folds_length.
      split; [reflexivity|]. split; [reflexivity|]. split; [reflexivity|].
      intros i f Hf.
      destruct (Forall2_lookup_l _ _ _ _ _ Hrs Hf) as [[[[e a] b] p] [Hr Hres]].
      exists e, a, b, p.
      rewrite !list_lookup_fmap, Hr. cbn [fmap option_fmap option_map fst snd].
      repeat split.
      now apply (fold_result_calls log_loss big).
Qed.

End KFoldProps.

(** ** The properties on concrete data *)

Lemma y4_entries (i j : nat) :
  (i < shape0 Demo.y4)%nat -> (j < shape1 Demo.y4)%nat ->
  item Demo.y4 i j = Fin (Demo.y4_q i j).
Proof.
  cbn [Demo.y4 from_rows shape0 shape1 length]. intros Hi Hj.
  destruct i as [|[|[|[|i]]]]; [| | | |lia];
    (destruct j as [|[|j]]; [| |lia]); reflexivity.
Qed.

Lemma fit_rare_label_mask_witness :
  exists mask,
    Classifier._freqs unit nat Demo.dkc_fitted = Some mask /\
    length mask = 2%nat.
Proof.
  destruct (fit_rare_label_mask Demo.keras_fit Demo.dkc_init Demo.X4 Demo.y4
              Demo.y4_q) as [mask [Hmask [Hlen _]]].
  - cbn. lia.
  - cbn. lia.
  - exact y4_entries.
  - exists mask. split; [exact Hmask|exact Hlen].
Defined.

Lemma predict_proba_blend_witness :
  exists out,
    (Demo.dkc_predict_proba Demo.dkc_fitted Demo.X4).2 = Ok out /\
    shape0 out = 4%nat /\ shape1 out = 2%nat.
Proof.
  destruct (predict_proba_blend Demo.keras_predict_proba Demo.dkc_fitted
              Demo.X4
              {| shape0 := 4; shape1 := 2; item _ _ := Fin (Q2Qc (6 # 10)) |}
              (default [] (Classifier._freqs unit nat Demo.dkc_fitted)))
    as [out [Hout [H0 [H1 _]]]].
  - vm_compute. reflexivity.
  - vm_compute. reflexivity.
  - vm_compute. reflexivity.
  - exists out. split; [exact Hout|]. split; [exact H0|exact H1].
Defined.

(** C3, as stated: the mask after fitting the 4 x 2 scenario is
    [0.5, 0.25], not [0, 0.25]. *)
Lemma scenario_mask_counterexample :
  Classifier._freqs unit nat Demo.dkc_fitted
  = Some [Fin (Q2Qc (1 # 2)); Fin (Q2Qc (1 # 4))] /\
  Classifier._freqs unit nat Demo.dkc_fitted
  <> Some [Fin 0; Fin (Q2Qc (1 # 4))].
Proof. split; decide_by_compute. Qed.

Lemma scenario_mask_and_blend_witness :
  exists out,
    (Demo.dkc_predict_proba Demo.dkc_fitted Demo.X4).2 = Ok out /\
    forall i, (i < 4)%nat -> item out i 1 = Fin (Q2Qc (17 # 40)).
Proof.
  destruct (scenario_mask_and_blend Demo.keras_fit Demo.keras_predict_proba
              Demo.dkc_init Demo.X4 Demo.X4
              {| shape0 := 4; shape1 := 2; item _ _ := Fin (Q2Qc (6 # 10)) |})
    as [_ [out [Hout [_ [_ Hblend]]]]].
  - reflexivity.
  - vm_compute. reflexivity.
  - cbn. lia.
  - intros i _. reflexivity.
  - exists out. split; [exact Hout|exact Hblend].
Defined.

(** C7, as stated: on a freshly constructed instance [predict_proba]
    raises AttributeError, both when the parent class raises it for the
    missing network and when the parent returns and [_freqs] is read; that
    is not an InvalidStateError. *)
Lemma no_state_error_counterexample :
  (Demo.dkc_predict_proba Demo.dkc_init Demo.X4).2 = Err AttributeError /\
  (Classifier.predict_proba unit nat (fun _ X => Ok X) Demo.dkc_init
     Demo.X4).2 = Err AttributeError /\
  AttributeError <> Raised "InvalidStateError".
Proof. split; [reflexivity|]. split; [reflexivity|discriminate]. Qed.

Lemma predict_proba_requires_fit_witness :
  (Demo.dkc_predict_proba Demo.dkc_init Demo.X4).2 = Err AttributeError /\
  (Demo.dkc_predict_proba Demo.dkc_init Demo.X4).1 = Demo.dkc_init.
Proof.
  destruct (predict_proba_requires_fit Demo.keras_fit Demo.keras_predict_proba
              Demo.dkc_init Demo.X4 eq_refl)
    as (_ & Hsuper & _ & Hstate & _).
  split; [apply Hsuper; reflexivity|exact Hstate].
Defined.

(** C9, as stated: a second [fit] on data of another shape changes the
    bound dimensions from (3, 2) to (5, 1). *)
Lemma rebinding_counterexample :
  let kw1 := Classifier.keywords unit
               (Classifier.build_fn unit nat Demo.dkc_fitted) in
  let kw2 := Classifier.keywords unit
               (Classifier.build_fn unit nat Demo.dkc_refitted) in
  (kw1 !! "input_units" = Some 3%nat /\ kw1 !! "output_units" = Some 2%nat) /\
  (kw2 !! "input_units" = Some 5%nat /\ kw2 !! "output_units" = Some 1%nat).
Proof. repeat split; vm_compute; reflexivity. Qed.

(** C6, as stated: for k = 1, and for k = 5 on four rows, the default
    splitter raises ValueError and [cv_fit] returns nothing. *)
Lemma single_split_counterexample :
  Train.cv_fit Demo.count_loss Sklearn.KFold Demo.float32_max
    Float64.add Float32.div Demo.clf06 Demo.features Demo.y4
    Demo.test_features None 1 []
  = ([], Err ValueError) /\
  Train.cv_fit Demo.count_loss Sklearn.KFold Demo.float32_max
    Float64.add Float32.div Demo.clf06 Demo.features Demo.y4
    Demo.test_features None 5 []
  = ([], Err ValueError).
Proof. split; reflexivity. Qed.

Lemma cv_fit_returns_k_witness :
  exists t es lt lv tp,
    Train.cv_fit Demo.count_loss Sklearn.KFold Demo.float32_max
      Float64.add Float32.div Demo.clf06 Demo.features Demo.y4
      Demo.test_features None 4 []
    = (t, Ok (es, lt, lv, tp)) /\
    length es = 4%nat /\ length lt = 4%nat /\ length lv = 4%nat.
Proof.
  destruct (cv_fit_returns_k Demo.count_loss Demo.float32_max
              Float64.add Float32.div Demo.clf06 Demo.features Demo.y4
              Demo.test_features 4) as [_ Hk].
  destruct Hk as (_ & _ & Hret); [cbn; lia|reflexivity|].
  destruct (Train.cv_fit Demo.count_loss Sklearn.KFold Demo.float32_max
              Float64.add Float32.div Demo.clf06 Demo.features Demo.y4
              Demo.test_features None 4 [])
    as [t [[[[es lt] lv] tp]|e]] eqn:Hrun.
  - destruct (Hret t es lt lv tp eq_refl) as (Hes & Hlt & Hlv & _).
    exists t, es, lt, lv, tp. split; [reflexivity|].
    split; [exact Hes|]. split; [exact Hlt|exact Hlv].
  - vm_compute in Hrun. discriminate Hrun.
Defined.

(** C4, as stated: three folds whose test predictions are 3/4, 3 * 2^-55
    and 3 * 2^-55, accumulated in float64.  In the order of [KFold(3)] the
    returned entry is 1/4; with the same folds in reverse order it is
    1/4 + 2^-54, which is also the exact mean of the three predictions. *)
Lemma fold_order_counterexample :
  n_splits Demo3.reversed = 3%nat /\
  split Demo3.reversed Demo3.features Demo3.labels
  ≡ₚ split (Sklearn.kfold 3) Demo3.features Demo3.labels /\
  length (split (Sklearn.kfold 3) Demo3.features Demo3.labels) = 3%nat /\
  fdiv (fsum [Demo3.three_quarters; Demo3.three_tiny; Demo3.three_tiny])
       (of_nat 3)
  = Fin Demo3.quarter_up /\
  match Demo3.run None, Demo3.run (Some Demo3.reversed) with
  | (_, Ok (_, _, _, tp)), (_, Ok (_, _, _, tp')) =>
      item tp 0 0 = Fin Demo3.quarter /\
      item tp' 0 0 = Fin Demo3.quarter_up /\
      item tp' 0 0 <> item tp 0 0
  | _, _ => False
  end.
Proof.
  split; [reflexivity|]. split; [symmetry; apply Permutation_rev|].
  split; [reflexivity|]. split; [decide_by_compute|].
  vm_compute.
  split; [f_equal; apply Qc_is_canon; reflexivity|].
  split; [f_equal; apply Qc_is_canon; reflexivity|]. discriminate.
Qed.

Lemma cv_fit_test_preds_accumulated_witness :
  exists t es lt lv tp,
    Demo.toy_cv_fit Demo3.clf05 Demo.two_fold = (t, Ok (es, lt, lv, tp)) /\
    shape0 tp = 2%nat /\ shape1 tp = 2%nat /\
    item tp 0 0
    = fdiv (fsum [Fin (Q2Qc (1 # 2)); Fin (Q2Qc (1 # 2))]) (of_nat 2).
Proof.
  destruct (cv_fit_test_preds_accumulated Demo.count_loss Sklearn.KFold
              Demo.float32_max Float64.add Float32.div Demo3.clf05
              Demo.features Demo.y4 Demo.test_features (Some Demo.two_fold) 5
              Demo.two_fold 2)
    as (t & es & lt & lv & tp & rs & Hrun & H0 & H1 & Hcalls & Hitem & _).
  - reflexivity.
  - reflexivity.
  - reflexivity.
  - lia.
  - vm_compute. reflexivity.
  - exists t, es, lt, lv, tp. split; [exact Hrun|]. split; [exact H0|].
    split; [exact H1|].
    cbn [Demo.two_fold split] in Hcalls.
    inversion Hcalls as [|f1 r1 fs1 rs1 Hc1 Hrest1]; subst.
    inversion Hrest1 as [|f2 r2 fs2 rs2 Hc2 Hrest2]; subst.
    inversion Hrest2; subst.
    apply fold_calls_result in Hc1, Hc2.
    vm_compute in Hc1, Hc2. injection Hc1 as <-. injection Hc2 as <-.
    destruct (Hitem 0%nat 0%nat) as [_ Hmean]. rewrite Hmean.
    + decide_by_compute.
    + cbn [map Train.no_rounding]. repeat split; decide_by_compute.
Defined.

(** C5, as stated: in single-shot [fit] on four rows, one of them a control
    row, the loss reported as validation loss is computed on the labels of
    three rows (6 entries of the 8): the control row has been removed from
    the set that is scored. *)
Lemma fit_valid_loss_counterexample :
  map ctl_row (rows Demo.features) = [false; true; false; false] /\
  length (ravel Demo.y4) = 8%nat /\
  match Demo.toy_fit Demo.clf06 with
  | ([EvFit _ _; EvPredict Xs; EvLogLoss y_true _; EvPredict _],
     Ok (_, _, losses_valid, _)) =>
      map ctl_row (rows Xs) = [false; false; false] /\
      length y_true = 6%nat /\
      losses_valid = [of_nat 6]
  | _ => False
  end.
Proof. repeat split; vm_compute; reflexivity. Qed.

Lemma control_rows_filtered_witness :
  exists Xtr ytr Xval yval ptr pval pre post,
    (Demo.toy_cv_fit Demo.clf06 Demo.two_fold).1
    = pre ++ [EvPrint 1;
              EvFit Xtr ytr; EvPredict Xtr; EvLogLoss (ravel ytr) ptr;
              EvPredict Xval; EvLogLoss (ravel yval) pval;
              EvPredict Demo.test_features] ++ post /\
    Forall (fun r => ctl_row r = false) (rows Xtr) /\
    length (rows Xval) = 2%nat.
Proof.
  destruct (control_rows_filtered Demo.count_loss Sklearn.KFold
              Demo.float32_max Float64.add Float32.div Demo.clf06
              Demo.features Demo.y4 Demo.test_features (Some Demo.two_fold) 5)
    as (_ & _ & Hcv & _).
  assert (is_ok (Demo.toy_cv_fit Demo.clf06 Demo.two_fold).2 = true) as Hok
    by (vm_compute; reflexivity).
  destruct (Hcv Hok Demo.two_fold 1%nat [0%Z; 1%Z] [2%Z; 3%Z] eq_refl eq_refl)
    as (Xtr & ytr & Xval & yval & ptr & pval & pre & post
        & Ht & Hctl & _ & Hlen & _).
  exists Xtr, ytr, Xval, yval, ptr, pval, pre, post.
  split; [exact Ht|]. split; [exact Hctl|exact Hlen].
Defined.

(** C8, as stated: an infinite prediction is not replaced by 0; it reaches
    [log_loss] and the returned test matrix as the largest finite value. *)
Lemma inf_not_zero_counterexample :
  match Demo.toy_fit Demo.clf_inf with
  | ([EvFit _ _; EvPredict _; EvLogLoss _ y_pred; EvPredict _],
     Ok (_, _, _, test_preds)) =>
      y_pred = repeat (Fin Demo.float32_max) 6 /\
      item test_preds 0 0 = Fin Demo.float32_max /\
      item test_preds 0 0 <> Fin 0
  | _ => False
  end.
Proof.
  vm_compute. split; [reflexivity|]. split; [reflexivity|]. discriminate.
Qed.

Lemma predictions_sanitized_witness :
  match (Demo.toy_fit Demo.clf_nan).2 with
  | Ok (_, _, _, tp) => is_finite (item tp 0 0) = true
  | Err _ => False
  end.
Proof.
  destruct (predictions_sanitized Demo.count_loss Sklearn.KFold
              Demo.float32_max Float64.add Float32.div Demo.clf_nan
              Demo.features Demo.y4 Demo.test_features (Some Demo.two_fold) 5)
    as (_ & _ & _ & _ & Hfit).
  destruct (Demo.toy_fit Demo.clf_nan)
    as [t [[[[clf' lt] lv] tp]|e]] eqn:Hrun.
  - cbn [snd]. apply (Hfit t clf' lt lv tp). exact Hrun.
  - vm_compute in Hrun. discriminate Hrun.
Defined.

(** the sum accumulated by [cv_fit] is outside that guarantee: two folds
    predicting +Inf, sanitized to the largest finite float64 and divided by
    a declared [n_splits] of 1, add up to +Inf *)
Lemma accumulated_overflow :
  match
    (Train.cv_fit Demo.count_loss Sklearn.KFold Float64.max
       Float64.add Float64.div Demo.clf_inf Demo.features Demo.y4
       Demo.test_features (Some Demo3.unit_split) 5 []).2
  with
  | Ok (_, _, _, tp) => item tp 0 0 = PInf
  | Err _ => False
  end.
Proof. vm_compute. reflexivity. Qed.

(** C10, as stated: the splitter declares 2 splits and yields 1 fold, the
    fold's sanitized prediction is 0 everywhere, and the returned matrix is
    the mean of the per-fold predictions all the same. *)
Lemma zero_sum_counterexample :
  n_splits Demo.short_fold = 2%nat /\
  length (split Demo.short_fold Demo.features Demo.y4) = 1%nat /\
  match (Demo.toy_cv_fit Demo.clf_nan Demo.short_fold).2 with
  | Ok (_, _, _, tp) =>
      forall i j,
        item tp i j
        = fdiv (fsum (map (fun f =>
                        Train.fold_pred_item Demo.count_loss Demo.float32_max
                          Demo.clf_nan Demo.features Demo.y4
                          Demo.test_features f i j)
                        (split Demo.short_fold Demo.features Demo.y4)))
               (of_nat (length (split Demo.short_fold Demo.features Demo.y4)))
  | Err _ => False
  end.
Proof.
  split; [reflexivity|]. split; [reflexivity|].
  vm_compute. intros i j. reflexivity.
Qed.

(** with rounding the equivalence is lost: two folds predicting 2^-1073 and
    0 under a declared [n_splits] of 3 return 2^-1074, the quotient having
    been rounded, and that is the mean of the two predictions although
    their sum is not zero *)
Lemma rounded_quotient_is_mean :
  match
    (Train.cv_fit Demo.count_loss Sklearn.KFold Float64.max
       Float64.add Float64.div Demo3.echo0 Demo3.features_tiny (zeros 2 1)
       Demo3.test_features (Some Demo3.three_declared) 5 []).2
  with
  | Ok (_, _, _, tp) =>
      item tp 0 0 = Fin Demo3.denormal /\
      fdiv (fsum [Fin (Demo3.denormal + Demo3.denormal); Fin 0]) (of_nat 2)
      = Fin Demo3.denormal /\
      fsum [Fin (Demo3.denormal + Demo3.denormal); Fin 0] <> Fin 0
  | Err _ => False
  end.
Proof.
  vm_compute.
  split; [f_equal; apply Qc_is_canon; reflexivity|].
  split; [f_equal; apply Qc_is_canon; reflexivity|]. discriminate.
Qed.

Lemma cv_fit_divides_by_n_splits_witness :
  exists t es lt lv tp,
    Demo.toy_cv_fit Demo3.clf05 Demo.short_fold = (t, Ok (es, lt, lv, tp)) /\
    item tp 0 0 <> fdiv (fsum [Fin (Q2Qc (1 # 2))]) (of_nat 1).
Proof.
  destruct (cv_fit_divides_by_n_splits Demo.count_loss Sklearn.KFold
              Demo.float32_max Float64.add Float32.div Demo3.clf05
              Demo.features Demo.y4 Demo.test_features
              (Some Demo.short_fold) 5)
    as (s & t & es & lt & lv & tp & rs & Hs & Hrun & Hcalls & _ & Hiff).
  - vm_compute. reflexivity.
  - cbn [Train.cv_or] in Hs. injection Hs as <-.
    exists t, es, lt, lv, tp. split; [exact Hrun|].
    cbn [Demo.short_fold split n_splits length] in Hcalls, Hiff.
    inversion Hcalls as [|f1 r1 fs1 rs1 Hc1 Hrest1]; subst.
    inversion Hrest1; subst.
    apply fold_calls_result in Hc1.
    vm_compute in Hc1. injection Hc1 as <-.
    intros Hmean.
    assert (fsum [Fin (Q2Qc (1 # 2))] = Fin 0) as Hzero.
    { apply (proj1 (Hiff ltac:(lia) ltac:(lia) ltac:(lia) 0%nat 0%nat
                      ltac:(cbn [map Train.no_rounding];
                            repeat split; decide_by_compute))).
      exact Hmean. }
    vm_compute in Hzero. discriminate Hzero.
Defined.

(** ** PandasSelector and read_data *)

Lemma sel_ge (P : string -> bool) (cols : list string) (k k' : nat) :
  In k' (sel P cols k) -> (k <= k')%nat.
Proof.
  revert k. induction cols as [|c cols IH]; intros k; cbn [sel]; [intros []|].
  destruct (P c); cbn [In]; intros Hin.
  - destruct Hin as [<-|Hin]; [lia|]. apply IH in Hin. lia.
  - apply IH in Hin. lia.
Qed.

Lemma sel_none (P : string -> bool) (cols : list string) (k : nat) :
  (forall c, In c cols -> P c = false) -> sel P cols k = [].
Proof.
  revert k. induction cols as [|c cols IH]; intros k HP; [reflexivity|].
  cbn [sel]. rewrite (HP c) by now left.
  apply IH. intros c' Hc'. apply HP. now right.
Qed.

Lemma sel_eqb_notin (c : string) (cols : list string) (k : nat) :
  ~ In c cols -> sel (String.eqb c) cols k = [].
Proof.
  intros Hc. apply sel_none. intros c' Hc'. apply String.eqb_neq.
  intros ->. contradiction.
Qed.

(** with distinct labels a label selects the one column that carries it *)
Lemma sel_eqb_NoDup (c : string) (cols : list string) (k s : nat) :
  NoDup cols -> cols !! k = Some c -> sel (String.eqb c) cols s = [(s + k)%nat].
Proof.
  revert k s. induction cols as [|c' cols IH]; intros k s Hnd Hk; [discriminate|].
  apply NoDup_cons in Hnd as [Hc' Hnd]. cbn [sel]. destruct k as [|k].
  - injection Hk as ->. rewrite String.eqb_refl, Nat.add_0_r.
    rewrite sel_eqb_notin; [reflexivity|]. now rewrite <- list_elem_of_In.
  - cbn in Hk. assert (c <> c') as Hne.
    { intros ->. apply Hc'. eapply list_elem_of_lookup_2, Hk. }
    apply String.eqb_neq in Hne. rewrite Hne.
    rewrite (IH k (S s) Hnd Hk). f_equal. lia.
Qed.

Lemma locate_NoDup (cols labels : list string) :
  NoDup cols ->
  (forall c, In c labels -> In c cols) ->
  exists ks, locate cols labels = Ok ks /\
             Forall2 (fun c k => cols !! k = Some c) labels ks.
Proof.
  intros Hnd. induction labels as [|c labels IH]; intros Hin.
  - exists []. split; [reflexivity|constructor].
  - destruct IH as [ks [Hks HF]]; [intros c' Hc'; apply Hin; now right|].
    assert (In c cols) as Hc by (apply Hin; now left).
    apply list_elem_of_In, list_elem_of_lookup in Hc as [k Hk].
    exists (k :: ks). cbn [locate].
    rewrite (sel_eqb_NoDup c cols k 0 Hnd Hk), Hks. cbn.
    split; [reflexivity|]. now constructor.
Qed.

Lemma locate_missing (cols labels : list string) (c : string) :
  In c labels -> ~ In c cols -> locate cols labels = Err KeyError.
Proof.
  intros Hin Hc. induction labels as [|c0 labels IH]; [destruct Hin|].
  cbn [locate]. destruct (sel (String.eqb c0) cols 0) as [|p ps] eqn:Hsel;
    [reflexivity|].
  destruct Hin as [->|Hin].
  - rewrite (sel_eqb_notin c cols 0 Hc) in Hsel. discriminate.
  - now rewrite (IH Hin).
Qed.

Lemma located_labels (cols labels : list string) (ks : list nat) :
  Forall2 (fun c k => cols !! k = Some c) labels ks ->
  map (fun k => nth k cols EmptyString) ks = labels.
Proof.
  induction 1 as [|c k labels ks Hk _ IH]; [reflexivity|].
  cbn [map]. rewrite IH. f_equal. now apply nth_lookup_Some.
Qed.

Lemma sel_labels (P : string -> bool) (cols : list string) (s : nat) :
  map (fun k => nth (k - s) cols EmptyString) (sel P cols s)
  = List.filter P cols.
Proof.
  revert s. induction cols as [|c cols IH]; intros s; [reflexivity|].
  cbn [sel List.filter].
  assert (map (fun k => nth (k - s) (c :: cols) EmptyString) (sel P cols (S s))
          = List.filter P cols) as Hrest.
  { rewrite <- (IH (S s)). apply map_ext_in. intros k Hk.
    apply sel_ge in Hk. replace (k - s)%nat with (S (k - S s)) by lia.
    reflexivity. }
  destruct (P c); cbn [map]; rewrite Hrest; [|reflexivity].
  now rewrite Nat.sub_diag.
Qed.

Section SelectorProps.

Import PandasSelector.

(** X1: a selector built with a prefix, fitted on a frame with distinct
    column labels and applied to that frame, does not raise; it returns the
    columns whose label starts with the prefix, in table order, for every
    row, and the cell under a label is the cell the input has under it. *)
Theorem selector_fit_transform (self : t) (p : string) (X : frame) :
  cols self = None ->
  startswith self = Some p ->
  NoDup (columns X) ->
  exists f,
    transform (fit self X) X = Ok (AsFrame f) /\
    columns f = List.filter (String.prefix p) (columns X) /\
    length (frame_rows f) = length (frame_rows X) /\
    forall i r, frame_rows X !! i = Some r ->
      exists r', frame_rows f !! i = Some r' /\
        length r' = length (columns f) /\
        forall k k' c,
          columns f !! k' = Some c -> columns X !! k = Some c ->
          nth k' r' (CNum NaN) = nth k r (CNum NaN).
Proof.
  intros Hcols Hpre Hnd. unfold fit, transform. rewrite Hcols, Hpre.
  cbn [cols]. unfold getitem.
  destruct (locate_NoDup (columns X)
              (List.filter (String.prefix p) (columns X)) Hnd)
    as [ks [-> HF]].
  { intros c Hc. now apply filter_In in Hc as [Hc _]. }
  pose proof (located_labels _ _ _ HF) as Hlab.
  eexists. split; [reflexivity|]. cbn [columns frame_rows].
  split; [exact Hlab|]. split; [apply length_map|].
  intros i r Hr. rewrite list_lookup_fmap, Hr. cbn.
  eexists. split; [reflexivity|].
  split; [now rewrite !length_map|].
  intros k k' c Hk' Hk. rewrite Hlab in Hk'.
  destruct (Forall2_lookup_l _ _ _ _ _ HF Hk') as [k0 [Hk0 Hc0]].
  assert (k0 = k) as -> by (eapply NoDup_lookup; eassumption).
  apply nth_lookup_Some. rewrite list_lookup_fmap, Hk0. cbn.
  reflexivity.
Qed.

(** X2: the prefix is resolved by the first [fit] only: fitting again, on
    any other frame, leaves the selector as the first [fit] left it. *)
Theorem selector_fit_once (self : t) (X X' : frame) :
  fit (fit self X) X' = fit self X.
Proof.
  unfold fit. destruct (cols self) as [l|] eqn:Hc;
    destruct (startswith self) as [p|] eqn:Hs; cbn [cols startswith];
    rewrite ?Hc, ?Hs; reflexivity.
Qed.

(** X3: when no column of the fitted frame starts with the prefix, the
    selector keeps an empty column list, and [transform] of any frame
    returns a frame without columns that has as many rows as its input. *)
Theorem selector_no_match (self : t) (p : string) (X X' : frame) :
  cols self = None ->
  startswith self = Some p ->
  (forall c, In c (columns X) -> String.prefix p c = false) ->
  cols (fit self X) = Some [] /\
  transform (fit self X) X'
  = Ok (AsFrame {| columns := [];
                   frame_rows := map (fun _ => []) (frame_rows X') |}).
Proof.
  intros Hcols Hpre Hno. unfold fit, transform. rewrite Hcols, Hpre.
  cbn [cols].
  assert (List.filter (String.prefix p) (columns X) = []) as ->.
  { induction (columns X) as [|c l IH]; [reflexivity|]. cbn [List.filter].
    rewrite (Hno c) by now left. apply IH. intros c' Hc'. apply Hno. now right. }
  split; reflexivity.
Qed.

(** X4: [transform] raises KeyError as soon as one of the selector's column
    labels is missing from the frame. *)
Theorem selector_missing_column (self : t) (labels : list string) (c : string)
    (X : frame) :
  cols self = Some labels ->
  In c labels ->
  ~ In c (columns X) ->
  transform self X = Err KeyError.
Proof.
  intros Hcols Hin Hc. unfold transform, getitem. rewrite Hcols.
  now rewrite (locate_missing _ _ c Hin Hc).
Qed.

End SelectorProps.

Section ReadDataProps.

Variable is_file : string -> bool.
Variable fallback : string -> string.
Variable read_csv : string -> result frame.
Variable float_of : string -> option num.

Local Abbreviation read_data :=
  (ReadData.read_data is_file fallback read_csv float_of).

Lemma drop_column_inv (df df' : frame) (c : string) :
  ReadData.drop_column df c = Ok df' ->
  In c (columns df) /\
  columns df'
  = List.filter (fun c' => negb (String.eqb c c')) (columns df) /\
  length (frame_rows df') = length (frame_rows df).
Proof.
  unfold ReadData.drop_column.
  destruct (sel (String.eqb c) (columns df) 0) as [|k ks] eqn:Hsel;
    [discriminate|].
  intros [= <-]. cbn [columns frame_rows]. split; [|split].
  - destruct (in_dec string_dec c (columns df)) as [Hin|Hnin]; [exact Hin|].
    rewrite (sel_eqb_notin c _ 0 Hnin) in Hsel. discriminate.
  - rewrite <- (sel_labels _ (columns df) 0). apply map_ext. intros k'.
    now rewrite Nat.sub_0_r.
  - apply length_map.
Qed.

(** X5: [read_data] returns a float array only when [return_df] is false
    and exactly 206 columns are left after the ignored column is dropped;
    in every other returning call it returns the frame. *)
Theorem read_data_array_iff_206 (path : string) (ignore_col : option string)
    (return_df : bool) (d : ReadData.data) :
  read_data path ignore_col return_df = Ok d ->
  match d with
  | ReadData.Array a => return_df = false /\ shape1 a = 206%nat
  | ReadData.DataFrame df =>
      return_df = true \/ length (columns df) <> 206%nat
  end.
Proof.
  unfold ReadData.read_data.
  destruct (read_csv _) as [df0|]; [|discriminate].
  destruct (match ignore_col with
            | Some c => ReadData.drop_column df0 c
            | None => Ok df0
            end) as [df|]; [|discriminate].
  destruct return_df; [intros [= <-]; now left|].
  destruct (Nat.eqb_spec (length (columns df)) 206) as [Hw|Hw].
  - unfold ReadData.astype_float32. destruct (forallb _ _); [|discriminate].
    intros [= <-]. cbn [shape1]. split; [reflexivity|exact Hw].
  - intros [= <-]. now right.
Qed.

(** X6: a frame returned by [read_data] with an ignored column has no
    column of that label; its other columns are those of the file, in
    order, and it has the rows of the file. *)
Theorem read_data_drops_ignored (path c : string) (return_df : bool)
    (df : frame) :
  read_data path (Some c) return_df = Ok (ReadData.DataFrame df) ->
  ~ In c (columns df) /\
  exists df0,
    read_csv (if is_file path then path else fallback path) = Ok df0 /\
    In c (columns df0) /\
    columns df
    = List.filter (fun c' => negb (String.eqb c c')) (columns df0) /\
    length (frame_rows df) = length (frame_rows df0).
Proof.
  unfold ReadData.read_data.
  destruct (read_csv _) as [df0|]; [|discriminate].
  destruct (ReadData.drop_column df0 c) as [df1|] eqn:Hdrop; [|discriminate].
  apply drop_column_inv in Hdrop as [Hin [Hcols Hrows]].
  assert (df1 = df -> ~ In c (columns df) /\
          exists df2, Ok df0 = Ok df2 /\ In c (columns df2) /\
            columns df
            = List.filter (fun c' => negb (String.eqb c c')) (columns df2) /\
            length (frame_rows df) = length (frame_rows df2)) as Hgoal.
  { intros <-. split; [|eauto].
    rewrite Hcols. intros Hc. apply filter_In in Hc as [_ Hc].
    now rewrite String.eqb_refl in Hc. }
  destruct return_df; [intros [= Heq]; now apply Hgoal|].
  destruct (length (columns df1) =? 206)%nat.
  - destruct (ReadData.astype_float32 _ df1); discriminate.
  - intros [= Heq]. now apply Hgoal.
Qed.

(** X7: when the file has no column with the label to ignore, [read_data]
    raises KeyError, whatever [return_df] is. *)
Theorem read_data_missing_ignored (path c : string) (return_df : bool)
    (df0 : frame) :
  read_csv (if is_file path then path else fallback path) = Ok df0 ->
  ~ In c (columns df0) ->
  read_data path (Some c) return_df = Err KeyError.
Proof.
  intros Hread Hc. unfold ReadData.read_data. rewrite Hread.
  unfold ReadData.drop_column. now rewrite (sel_eqb_notin c _ 0 Hc).
Qed.

End ReadDataProps.

(** ** More on the classifier *)

Lemma nat2Qc_S (c : nat) : nat2Qc (S c) = 1 + nat2Qc c.
Proof.
  unfold nat2Qc. rewrite Nat2Z.inj_succ, <- Z.add_1_l, Z2Qc_inj_add.
  now rewrite Z2Qc_inj_1.
Qed.

Lemma nat2Qc_pos (n : nat) : (0 < n)%nat -> 0 < nat2Qc n.
Proof.
  intros Hn. unfold nat2Qc. rewrite <- Z2Qc_inj_0.
  apply (proj1 (Z2Qc_inj_lt 0 (Z.of_nat n))). lia.
Qed.

(** the sum of a 0/1 column is its number of ones *)
Lemma count_sum (b : nat -> bool) (l : list nat) :
  fsum (map (fun i => of_bool (b i)) l)
  = Fin (nat2Qc (length (List.filter b l))).
Proof.
  unfold fsum. induction l as [|i l IH].
  { cbn [map foldr List.filter length]. f_equal. symmetry. exact Z2Qc_inj_0. }
  cbn [map foldr List.filter]. rewrite IH.
  destruct (b i); cbn [of_bool fadd length].
  - now rewrite nat2Qc_S.
  - now rewrite Qcplus_0_l.
Qed.

(** a rate c/n is below the cutoff 200/n exactly when c < 200 *)
Lemma ratio_lt (c n : nat) :
  (0 < n)%nat ->
  nat2Qc c / nat2Qc n < Qc_of_Z 200 / nat2Qc n <-> (c < 200)%nat.
Proof.
  intros Hn. pose proof (Qcinv_pos _ (nat2Qc_pos n Hn)) as Hinv.
  unfold Qcdiv. rewrite <- (Qcmult_lt_mono_pos_r _ _ _ Hinv).
  unfold nat2Qc. rewrite <- (Z2Qc_inj_lt (Z.of_nat c) 200). lia.
Qed.

Lemma ratio_pos (c n : nat) :
  (0 < n)%nat ->
  fgt (Fin (nat2Qc c / nat2Qc n)) (Fin 0) = (0 <? c)%nat.
Proof.
  intros Hn. pose proof (Qcinv_pos _ (nat2Qc_pos n Hn)) as Hinv.
  unfold fgt, flt. destruct c as [|c].
  - cbn [Nat.ltb Nat.leb]. apply bool_decide_eq_false_2.
    assert (nat2Qc 0 / nat2Qc n = 0) as ->.
    { unfold Qcdiv. replace (nat2Qc 0) with 0 by (symmetry; exact Z2Qc_inj_0).
      now rewrite Qcmult_0_l. }
    intros H. now apply Qclt_not_eq in H.
  - apply bool_decide_eq_true_2. unfold Qcdiv.
    apply Qcmult_pos_pos; [apply nat2Qc_pos; lia|exact Hinv].
Qed.

(** the mean of two rationals lies between them *)
Lemma half_between (r f : Qc) :
  r <= f -> r <= (r + f) / (1 + 1) /\ (r + f) / (1 + 1) <= f.
Proof.
  unfold Qcle, Qcdiv, Qcmult, Qcplus, Qcinv, Q2Qc. cbn [this].
  rewrite !Qred_correct. intros H.
  change (/ (1 + 1))%Q with (1 # 2)%Q.
  generalize dependent (this r). generalize (this f). intros a b H.
  split; lra.
Qed.

Section ClassifierExtra.

Context {Builder Model : Type}.
Variable super_fit :
  Classifier.partial Builder -> option Model -> ndarray -> ndarray ->
  option Model * result unit.
Variable super_predict_proba : option Model -> ndarray -> result ndarray.

Local Abbreviation dkc := (Classifier.DynamicKerasClassifier Builder Model).
Local Abbreviation fit := (Classifier.fit Builder Model super_fit).
Local Abbreviation predict_proba :=
  (Classifier.predict_proba Builder Model super_predict_proba).
Local Abbreviation _freqs := (Classifier._freqs Builder Model).
Local Abbreviation build_fn := (Classifier.build_fn Builder Model).
Local Abbreviation keywords := (Classifier.keywords Builder).

(** the mask after [fit] on a 0/1 label table with the rows of [X] *)
Lemma fit_mask_counts (self : dkc) (X y : ndarray) (b : nat -> nat -> bool) :
  (0 < shape0 X)%nat ->
  shape0 y = shape0 X ->
  (forall i j, (i < shape0 y)%nat -> (j < shape1 y)%nat ->
               item y i j = of_bool (b i j)) ->
  _freqs (fit self X y).1
  = Some (map (fun j =>
                 if (positives b (shape0 X) j <? 200)%nat
                 then Fin (nat2Qc (positives b (shape0 X) j) / nat2Qc (shape0 X))
                 else Fin 0)
              (seq 0 (shape1 y))).
Proof.
  intros Hn Hrows Hb. rewrite (fit_freqs super_fit) by exact Hn. f_equal.
  unfold mean0. rewrite map_map. apply map_ext_in. intros j Hj.
  apply in_seq in Hj.
  assert (column y j = map (fun i => of_bool (b i j)) (seq 0 (shape0 X)))
    as ->.
  { unfold column. rewrite Hrows. apply map_ext_in. intros i Hi.
    apply in_seq in Hi. apply Hb; lia. }
  rewrite (count_sum (fun i => b i j)). fold (positives b (shape0 X) j).
  rewrite Hrows. unfold of_nat.
  rewrite fdiv_Fin by (apply nat2Qc_nonzero; exact Hn).
  rewrite mask_entry.
  destruct (Nat.ltb_spec (positives b (shape0 X) j) 200) as [Hlt|Hge].
  - rewrite bool_decide_eq_true_2; [reflexivity|]. now apply ratio_lt.
  - rewrite bool_decide_eq_false_2; [reflexivity|].
    intros Hlt. apply ratio_lt in Hlt; lia.
Qed.

(** X8: after [fit] on a 0/1 label table that has the n >= 1 rows of [X],
    the mask entry of a label with c positive rows is c/n when c < 200 and
    0 when c >= 200. *)
Theorem fit_mask_by_count (self : dkc) (X y : ndarray) (b : nat -> nat -> bool) :
  (0 < shape0 X)%nat ->
  shape0 y = shape0 X ->
  (forall i j, (i < shape0 y)%nat -> (j < shape1 y)%nat ->
               item y i j = of_bool (b i j)) ->
  exists mask,
    _freqs (fit self X y).1 = Some mask /\
    forall j, (j < shape1 y)%nat ->
      mask !! j
      = Some (if (positives b (shape0 X) j <? 200)%nat
              then Fin (nat2Qc (positives b (shape0 X) j) / nat2Qc (shape0 X))
              else Fin 0).
Proof.
  intros Hn Hrows Hb. eexists.
  split; [exact (fit_mask_counts self X y b Hn Hrows Hb)|].
  intros j Hj. now rewrite list_lookup_fmap, lookup_seq_lt.
Qed.

(** X9: [fit] followed by [predict_proba], on a 0/1 label table with the
    rows of [X]: the prediction for a label with c positive rows is
    (raw + c/n) / 2 when 0 < c < 200, and the raw prediction when the label
    has no positive row or at least 200. *)
Theorem fit_then_predict_proba (self : dkc) (X y Xq raw : ndarray)
    (b : nat -> nat -> bool) :
  (0 < shape0 X)%nat ->
  shape0 y = shape0 X ->
  (forall i j, (i < shape0 y)%nat -> (j < shape1 y)%nat ->
               item y i j = of_bool (b i j)) ->
  super_predict_proba (Classifier.model _ _ (fit self X y).1) Xq = Ok raw ->
  (shape1 y <= shape1 raw)%nat ->
  exists out,
    (predict_proba (fit self X y).1 Xq).2 = Ok out /\
    shape0 out = shape0 raw /\ shape1 out = shape1 raw /\
    forall i j, (j < shape1 y)%nat ->
      item out i j
      = if (0 <? positives b (shape0 X) j)%nat
           && (positives b (shape0 X) j <? 200)%nat
        then fdiv (fadd (item raw i j)
                        (Fin (nat2Qc (positives b (shape0 X) j)
                              / nat2Qc (shape0 X))))
                  (Fin 2)
        else item raw i j.
Proof.
  intros Hn Hrows Hb Hraw Hw.
  pose proof (fit_mask_counts self X y b Hn Hrows Hb) as Hmask.
  destruct (predict_proba_entries super_predict_proba _ Xq raw _ Hmask Hraw)
    as [out [Hout [H0 [H1 [Hpos Hzero]]]]].
  { intros j f Hf _. apply lookup_lt_Some in Hf.
    rewrite length_map, length_seq in Hf. lia. }
  exists out. split; [exact Hout|]. split; [exact H0|]. split; [exact H1|].
  intros i j Hj.
  assert (forall f, map (fun j =>
                 if (positives b (shape0 X) j <? 200)%nat
                 then Fin (nat2Qc (positives b (shape0 X) j) / nat2Qc (shape0 X))
                 else Fin 0) (seq 0 (shape1 y)) !! j = Some f ->
            f = if (positives b (shape0 X) j <? 200)%nat
                then Fin (nat2Qc (positives b (shape0 X) j) / nat2Qc (shape0 X))
                else Fin 0) as Hf.
  { intros f. rewrite list_lookup_fmap, lookup_seq_lt by exact Hj.
    cbn. now intros [= <-]. }
  destruct (positives b (shape0 X) j <? 200)%nat eqn:Hlt.
  - destruct (0 <? positives b (shape0 X) j)%nat eqn:Hgt; cbn [andb].
    + apply Hpos; [|now rewrite ratio_pos].
      rewrite list_lookup_fmap, lookup_seq_lt by exact Hj.
      cbn [fmap option_fmap option_map Nat.add]. now rewrite Hlt.
    + apply Hzero. intros f Hl. rewrite (Hf f Hl).
      now rewrite ratio_pos.
  - rewrite andb_false_r. apply Hzero. intros f Hl. rewrite (Hf f Hl).
    reflexivity.
Qed.

(** X10: a rare label's blended prediction lies between the raw prediction
    and the label's mask value; so it stays within [0, 1] when both are. *)
Theorem blend_between (self : dkc) (X raw : ndarray) (freqs : list num)
    (i j : nat) (f r : Qc) :
  _freqs self = Some freqs ->
  super_predict_proba (Classifier.model _ _ self) X = Ok raw ->
  (length freqs <= shape1 raw)%nat ->
  freqs !! j = Some (Fin f) ->
  0 < f ->
  item raw i j = Fin r ->
  exists out o,
    (predict_proba self X).2 = Ok out /\
    item out i j = Fin o /\
    (r <= f -> r <= o /\ o <= f) /\
    (f <= r -> f <= o /\ o <= r) /\
    (0 <= r -> r <= 1 -> f <= 1 -> 0 <= o /\ o <= 1).
Proof.
  intros Hfreqs Hraw Hw Hj Hf Hr.
  destruct (predict_proba_entries super_predict_proba self X raw freqs
              Hfreqs Hraw) as [out [Hout [_ [_ [Hpos _]]]]].
  { intros j' f' Hl _. apply lookup_lt_Some in Hl. lia. }
  exists out, ((r + f) / (1 + 1)). split; [exact Hout|].
  split.
  { rewrite (Hpos i j (Fin f) Hj) by now apply bool_decide_eq_true_2.
    rewrite Hr. cbn [fadd]. apply fdiv_Fin. discriminate. }
  split; [apply half_between|]. split.
  - intros Hle. rewrite (Qcplus_comm r f). now apply half_between.
  - intros H0 H1 Hf1. destruct (Qclt_le_dec f r) as [Hlt|Hle].
    + apply Qclt_le_weak in Hlt.
      rewrite (Qcplus_comm r f). destruct (half_between f r Hlt) as [Ha Hb].
      split; [|now apply Qcle_trans with r].
      apply Qcle_trans with f; [now apply Qclt_le_weak|exact Ha].
    + destruct (half_between r f Hle) as [Ha Hb].
      split; [now apply Qcle_trans with r|now apply Qcle_trans with f].
Qed.

(** X11: [predict_proba] raises IndexError, and leaves the instance as it
    was, when the raw model output has no column at the position of a label
    whose mask value is positive. *)
Theorem predict_proba_narrow_output (self : dkc) (X raw : ndarray)
    (freqs : list num) (j : nat) (f : num) :
  _freqs self = Some freqs ->
  super_predict_proba (Classifier.model _ _ self) X = Ok raw ->
  freqs !! j = Some f ->
  fgt f (Fin 0) = true ->
  (shape1 raw <= j)%nat ->
  predict_proba self X = (self, Err IndexError).
Proof.
  intros Hfreqs Hraw Hj Hgt Hw. unfold Classifier.predict_proba.
  rewrite Hraw, Hfreqs. unfold take_cols.
  destruct (forallb _ (where_gt0 freqs)) eqn:Hall; [|reflexivity].
  rewrite forallb_forall in Hall.
  assert (j ∈ where_gt0 freqs) as Hin by (apply where_gt0_spec; eauto).
  apply list_elem_of_In, Hall, Nat.ltb_lt in Hin. lia.
Qed.

(** X12: [fit] on a feature matrix without rows raises ZeroDivisionError;
    the mask and the model of an earlier [fit] stay in place, while
    [build_fn] has already been rebound to the widths of the rejected
    data. *)
Theorem fit_without_rows (self : dkc) (X y : ndarray) :
  shape0 X = 0%nat ->
  (fit self X y).2 = Err ZeroDivisionError /\
  _freqs (fit self X y).1 = _freqs self /\
  Classifier.model _ _ (fit self X y).1 = Classifier.model _ _ self /\
  keywords (build_fn (fit self X y).1) !! "input_units" = Some (shape1 X) /\
  keywords (build_fn (fit self X y).1) !! "output_units" = Some (shape1 y).
Proof.
  intros HX. unfold Classifier.fit. rewrite HX.
  cbn [fst snd Classifier._freqs Classifier.model Classifier.build_fn
       Classifier.mk_partial Classifier.keywords].
  repeat split.
  - apply lookup_union_Some_l. now rewrite lookup_insert_eq.
  - apply lookup_union_Some_l.
    rewrite lookup_insert_ne by discriminate. now rewrite lookup_insert_eq.
Qed.

End ClassifierExtra.

(** ** More on cv_fit and fit *)

Lemma compress_In {A} (keep : list bool) (l : list A) (x : A) :
  In x (compress keep l) -> In x l.
Proof.
  revert l. induction keep as [|b keep IH]; intros [|a l]; cbn [compress];
    try (intros []).
  destruct b; cbn [In]; intros Hin.
  - destruct Hin as [<-|Hin]; [now left|right; now apply IH].
  - right. now apply IH.
Qed.

Lemma compress_map {A B} (g : A -> B) (keep : list bool) (l : list A) :
  compress keep (map g l) = map g (compress keep l).
Proof.
  revert l. induction keep as [|b keep IH]; intros [|a l]; cbn [compress map];
    try reflexivity.
  destruct b; cbn [map]; now rewrite IH.
Qed.

Lemma compress_filter_map {A} (g : A -> bool) (l : list A) :
  compress (map g l) l = List.filter g l.
Proof.
  induction l as [|a l IH]; [reflexivity|].
  cbn [map compress List.filter]. destruct (g a); now rewrite IH.
Qed.

(** selecting by a mask is reading at the positions the mask keeps *)
Lemma compress_nth {A} (d : A) (keep : list bool) (l : list A) (s : nat) :
  length keep = length l ->
  compress keep l
  = map (fun k => nth (k - s) l d) (compress keep (seq s (length keep))).
Proof.
  revert l s. induction keep as [|b keep IH]; intros [|a l] s Hlen;
    try discriminate; [reflexivity|].
  injection Hlen as Hlen. cbn [length seq compress].
  assert (map (fun k => nth (k - s) (a :: l) d)
              (compress keep (seq (S s) (length keep)))
          = compress keep l) as Hrest.
  { rewrite (IH l (S s) Hlen). apply map_ext_in. intros k Hk.
    apply compress_In, in_seq in Hk.
    replace (k - s)%nat with (S (k - S s)) by lia. reflexivity. }
  destruct b; cbn [map]; rewrite Hrest; [|reflexivity].
  now rewrite Nat.sub_diag.
Qed.

Lemma mask_rows_inv (y y' : ndarray) (keep : list bool) :
  mask_rows y keep = Ok y' ->
  length keep = shape0 y /\
  shape0 y' = length (compress keep (seq 0 (length keep))) /\
  shape1 y' = shape1 y /\
  forall i j,
    item y' i j = item y (nth i (compress keep (seq 0 (length keep))) 0%nat) j.
Proof.
  unfold mask_rows. destruct (Nat.eqb_spec (length keep) (shape0 y)) as [He|He];
    [|discriminate].
  intros [= <-]. repeat split. exact He.
Qed.

Section TrainExtra.

Context {E : Type} `{Estimator E}.
Variable log_loss : list num -> list num -> result num.
Variable KFold : nat -> result splitter.
Variable big : Qc.
Variable float_add : num -> num -> num.
Variable float_div : num -> nat -> num.

Local Abbreviation run_fold := (Train.run_fold log_loss big).
Local Abbreviation cv_loop := (Train.cv_loop log_loss big float_add float_div).
Local Abbreviation cv_fit :=
  (Train.cv_fit log_loss KFold big float_add float_div).
Local Abbreviation fit := (Train.fit log_loss big).
Local Abbreviation fold_result := (Train.fold_result log_loss big).
Local Abbreviation fold_events := (Train.fold_events log_loss big).
Local Abbreviation fold_passes :=
  (Train.fold_passes log_loss big float_add float_div).
Local Abbreviation cv_or := (Train.cv_or KFold).

(** the loop over folds that all return carries on with the folds after
    them *)
Lemma cv_loop_prefix cv clf X y X_test pre rest :
  forall fn es lt lv tp t,
  shape0 tp = length (rows X_test) -> shape1 tp = shape1 y ->
  forallb (fold_passes cv clf X y X_test) pre = true ->
  exists es' lt' lv' tp',
    shape0 tp' = length (rows X_test) /\ shape1 tp' = shape1 y /\
    cv_loop cv clf X y X_test (pre ++ rest) fn (es, lt, lv, tp) t
    = cv_loop cv clf X y X_test rest (fn + length pre) (es', lt', lv', tp')
        (t ++ concat (imap (fun k f => fold_events clf X y X_test (fn + k) f)
                           pre)).
Proof.
  induction pre as [|f pre IH]; intros fn es lt lv tp t H0 H1 Hpass.
  - exists es, lt, lv, tp. cbn [app length imap concat].
    now rewrite Nat.add_0_r, app_nil_r.
  - cbn [forallb] in Hpass. apply andb_prop in Hpass as [Hf Hpass].
    cbn [app Train.cv_loop]. unfold bind at 1.
    rewrite (run_fold_natural log_loss big).
    unfold Train.fold_passes in Hf.
    destruct (fold_result clf X y X_test f) as [[[[e a] b] p]|err];
      [|discriminate].
    unfold bind at 1, lift at 1.
    destruct (iadd_shape_only float_add
                (zeros (length (rows X_test)) (shape1 y)) tp _
                H0 H1 Hf) as [tp1 Htp1].
    rewrite Htp1. apply iadd_inv in Htp1 as [Hs0 [Hs1 _]].
    destruct (IH (S fn) (es ++ [e]) (lt ++ [a]) (lv ++ [b]) tp1
                 (t ++ fold_events clf X y X_test fn f))
      as (es' & lt' & lv' & tp' & H0' & H1' & Heq);
      [congruence|congruence|exact Hpass|].
    exists es', lt', lv', tp'. split; [exact H0'|]. split; [exact H1'|].
    rewrite Heq. cbn [length imap concat].
    rewrite Nat.add_0_r, <- app_assoc. f_equal; [lia|]. do 3 f_equal.
    apply imap_ext. intros k f' _. cbn. f_equal. lia.
Qed.

(** X13: [cv_fit] stops at the first fold that raises: it raises that
    fold's exception (ValueError when the fold's test prediction cannot be
    added to the accumulated matrix), returns no partial result, and has
    made the calls of the folds before it and of that fold only. *)
Theorem cv_fit_fail_fast clf X y X_test cv n s pre f post :
  cv_or cv n = Ok s ->
  split s X y = pre ++ f :: post ->
  forallb (fold_passes s clf X y X_test) pre = true ->
  fold_passes s clf X y X_test f = false ->
  cv_fit clf X y X_test cv n []
  = (concat (imap (fun k g => fold_events clf X y X_test k g) pre)
       ++ fold_events clf X y X_test (length pre) f,
     Err (match fold_result clf X y X_test f with
          | Err e => e
          | Ok _ => ValueError
          end)).
Proof.
  intros Hs Hsplit Hpre Hf. unfold Train.cv_fit, bind at 1, lift at 1.
  rewrite Hs, Hsplit. unfold bind at 1.
  destruct (cv_loop_prefix s clf X y X_test pre (f :: post)
              0 [] [] [] (zeros (length (rows X_test)) (shape1 y)) []
              eq_refl eq_refl Hpre)
    as (es' & lt' & lv' & tp' & H0' & H1' & ->).
  cbn [app Nat.add Train.cv_loop]. unfold bind at 1.
  rewrite (run_fold_natural log_loss big).
  unfold Train.fold_passes in Hf.
  destruct (fold_result clf X y X_test f) as [[[[e a] b] p]|err];
    [|reflexivity].
  unfold bind at 1, lift at 1.
  rewrite <- (iadd_ok_shape float_add
                (zeros (length (rows X_test)) (shape1 y)) tp' _
                H0' H1') in Hf.
  unfold iadd in *. destruct (_ && _); [discriminate|reflexivity].
Qed.

(** X14: single-shot [fit] raises IndexError before it calls the estimator
    when the feature table has no column, or when the label table has not
    as many rows as the feature table. *)
Theorem fit_rejects_misaligned clf X y X_test :
  ncols X = 0%nat \/ length (rows X) <> shape0 y ->
  fit clf X y X_test [] = ([], Err IndexError).
Proof.
  intros Hbad. unfold Train.fit, bind, lift, ctl_mask.
  destruct (ncols X) as [|w] eqn:Hw; [reflexivity|].
  destruct Hbad as [Hbad|Hbad]; [discriminate|].
  unfold mask_rows. rewrite !length_map.
  destruct (Nat.eqb_spec (length (rows X)) (shape0 y)); [contradiction|].
  reflexivity.
Qed.

(** X15: in a returning single-shot [fit], the estimator is fitted on the
    rows of [X] at the positions that are not control rows, in order, and
    on the label rows at the same positions: row i of the training features
    and row i of the training labels come from one row of the input. *)
Theorem fit_rows_aligned clf X y X_test :
  is_ok (fit clf X y X_test []).2 = true ->
  exists Xtr ytr rest,
    (fit clf X y X_test []).1 = EvFit Xtr ytr :: rest /\
    rows Xtr = map (fun p => nth p (rows X) []) (kept_positions X) /\
    shape0 ytr = length (kept_positions X) /\
    shape1 ytr = shape1 y /\
    forall i j, item ytr i j = item y (nth i (kept_positions X) 0%nat) j.
Proof.
  intros Hok. destruct (fit clf X y X_test []) as [t r] eqn:Hrun.
  cbn [snd] in Hok.
  destruct r as [[[[clf' lt] lv] tp]|]; [|discriminate].
  apply (fit_inv log_loss big) in Hrun.
  destruct Hrun as (mask & ytr & e0 & e1 & ptr & p & loss & Hmask & Hrows & _
                    & _ & _ & _ & _ & _ & _ & ->).
  apply ctl_mask_inv in Hmask. subst mask.
  apply mask_rows_inv in Hrows as (Hlen & Hs0 & Hs1 & Hitem).
  rewrite !length_map in Hs0, Hitem.
  assert (compress (map negb (map ctl_row (rows X)))
                   (seq 0 (length (rows X)))
          = kept_positions X) as Hkept.
  { unfold kept_positions.
    rewrite <- (compress_filter_map
                  (fun p => negb (ctl_row (nth p (rows X) [])))).
    f_equal. rewrite map_map.
    apply nth_ext with (d := true) (d' := true);
      [now rewrite !length_map, length_seq|].
    intros k Hk. rewrite length_map in Hk.
    rewrite (nth_indep _ true (negb (ctl_row []))) by now rewrite length_map.
    rewrite (map_nth (fun r => negb (ctl_row r))).
    rewrite (nth_indep _ true
               (negb (ctl_row (nth 0%nat (rows X) []))))
      by now rewrite length_map, length_seq.
    rewrite (map_nth (fun p => negb (ctl_row (nth p (rows X) [])))).
    now rewrite seq_nth. }
  rewrite Hkept in Hs0, Hitem. cbn [fst app].
  eexists _, ytr, _. split; [reflexivity|].
  split; [|split; [exact Hs0|split; [exact Hs1|exact Hitem]]].
  cbn [mask_table rows]. rewrite <- Hkept.
  rewrite (compress_nth [] _ (rows X) 0) by now rewrite !length_map.
  rewrite !length_map. apply map_ext. intros k. now rewrite Nat.sub_0_r.
Qed.

Lemma iloc_inv (X0 Xs : table) (idx : list Z) :
  iloc X0 idx = Ok Xs ->
  exists ks, norm_indices (length (rows X0)) idx = Ok ks /\
             rows Xs = map (fun k => nth k (rows X0) []) ks.
Proof.
  unfold iloc. destruct (norm_indices _ idx) as [ks|]; [|discriminate].
  intros [= <-]. eauto.
Qed.

Lemma take_rows_inv (y0 ys : ndarray) (idx : list Z) :
  take_rows y0 idx = Ok ys ->
  exists ks, norm_indices (shape0 y0) idx = Ok ks /\
             shape0 ys = length ks /\ shape1 ys = shape1 y0 /\
             forall i j, item ys i j = item y0 (nth i ks 0%nat) j.
Proof.
  unfold take_rows. destruct (norm_indices _ idx) as [ks|]; [|discriminate].
  intros [= <-]. exists ks. repeat split.
Qed.

(** X16: in every fold of a returning [cv_fit] over feature and label
    tables of equal height, the estimator is fitted on the rows of [X] at
    the fold's training positions that are not control rows, in the order
    the splitter gave them, and on the label rows at the same positions. *)
Theorem cv_fit_rows_aligned clf X y X_test cv n s :
  shape0 y = length (rows X) ->
  is_ok (cv_fit clf X y X_test cv n []).2 = true ->
  cv_or cv n = Ok s ->
  forall k trn val,
    split s X y !! k = Some (trn, val) ->
    exists ks Xtr ytr pre post,
      norm_indices (length (rows X)) trn = Ok ks /\
      (cv_fit clf X y X_test cv n []).1
      = pre ++ [EvPrint k; EvFit Xtr ytr] ++ post /\
      rows Xtr
      = map (fun p => nth p (rows X) [])
            (List.filter (fun p => negb (ctl_row (nth p (rows X) []))) ks) /\
      shape0 ytr
      = length (List.filter (fun p => negb (ctl_row (nth p (rows X) []))) ks) /\
      shape1 ytr = shape1 y /\
      forall i j,
        (i < shape0 ytr)%nat ->
        item ytr i j
        = item y (nth i (List.filter
                           (fun p => negb (ctl_row (nth p (rows X) []))) ks)
                        0%nat) j.
Proof.
  intros Hh Hok Hs k trn val Hk.
  destruct (cv_fit clf X y X_test cv n []) as [t r] eqn:Hrun.
  cbn [snd] in Hok. apply is_ok_inv in Hok as [st ->]. cbn [fst].
  destruct (cv_fit_fold_segment log_loss KFold big float_add float_div
              _ _ _ _ _ _ _ _ _ _ _ _ Hrun Hs Hk)
    as [[[[e a] b] p] [pre [post [Hfold ->]]]].
  apply (run_fold_inv log_loss big) in Hfold.
  destruct Hfold as (Xtr0 & Xval & ytr0 & yval & mask & ytr & e0 & e1 & ptr
                     & e2 & pval & p' & Hrest).
  destruct Hrest as (Hi & _ & Ht & _ & Hmask & Hmr & _ & _ & _ & _ & _
                     & _ & _ & Hev).
  cbn [app] in Hev. rewrite Hev.
  apply iloc_inv in Hi as [ks [Hks HXtr0]].
  apply take_rows_inv in Ht as [ks' [Hks' [Hy0 [Hy1 Hyitem]]]].
  rewrite Hh, Hks in Hks'. injection Hks' as <-.
  apply ctl_mask_inv in Hmask. subst mask. rewrite HXtr0 in Hmr |- *.
  rewrite !map_map in Hmr.
  set (g := fun p => negb (ctl_row (nth p (rows X) []))) in *.
  apply mask_rows_inv in Hmr as (Hlen & Hs0 & Hs1 & Hitem).
  rewrite length_map in Hs0, Hitem.
  pose proof (compress_nth 0%nat (map g ks) ks 0
                ltac:(now rewrite length_map)) as Hps.
  rewrite compress_filter_map, length_map in Hps.
  exists ks. eexists _, ytr, pre, _. split; [exact Hks|]. split.
  { cbn [app]. reflexivity. }
  split.
  { cbn [mask_table rows]. rewrite HXtr0, !map_map. fold g.
    rewrite compress_map. now rewrite compress_filter_map. }
  split; [rewrite Hs0, Hps; now rewrite length_map|].
  split; [congruence|].
  intros i j Hi. rewrite Hitem, Hyitem. f_equal. rewrite Hps.
  rewrite Hs0 in Hi.
  rewrite (nth_indep (map (fun k0 => nth (k0 - 0) ks 0%nat)
                          (compress (map g ks) (seq 0 (length ks))))
             0%nat (nth (0 - 0) ks 0%nat)) by now rewrite length_map.
  rewrite (map_nth (fun k0 => nth (k0 - 0) ks 0%nat)).
  now rewrite Nat.sub_0_r.
Qed.

End TrainExtra.

(** ** The further properties on concrete data *)

Lemma selector_fit_transform_witness :
  exists f,
    PandasSelector.transform
      (PandasSelector.fit (Demo2.by_prefix "c-") Demo2.assay) Demo2.assay
    = Ok (PandasSelector.AsFrame f) /\
    columns f = ["c-0"; "c-1"]%string.
Proof.
  destruct (selector_fit_transform (Demo2.by_prefix "c-") "c-" Demo2.assay)
    as [f [Hf [Hcols _]]].
  - reflexivity.
  - reflexivity.
  - decide_by_compute.
  - exists f. split; [exact Hf|exact Hcols].
Defined.

Lemma selector_no_match_witness :
  PandasSelector.transform
    (PandasSelector.fit (Demo2.by_prefix "zz") Demo2.assay) Demo2.assay_short
  = Ok (PandasSelector.AsFrame {| columns := []; frame_rows := [[]] |}).
Proof.
  apply (selector_no_match (Demo2.by_prefix "zz") "zz" Demo2.assay
           Demo2.assay_short).
  - reflexivity.
  - reflexivity.
  - intros c [<-|[<-|[<-|[<-|[]]]]]; reflexivity.
Defined.

Lemma selector_missing_column_witness :
  PandasSelector.transform
    (PandasSelector.fit (Demo2.by_prefix "c-") Demo2.assay) Demo2.assay_short
  = Err KeyError.
Proof.
  apply (selector_missing_column _ ["c-0"; "c-1"]%string "c-1"%string).
  - reflexivity.
  - right. left. reflexivity.
  - intros [Hc|[Hc|[]]]; discriminate Hc.
Defined.

Lemma read_data_array_iff_206_witness :
  false = true \/ length ["cp_type"; "c-0"]%string <> 206%nat.
Proof.
  apply (read_data_array_iff_206 Demo2.one_file Demo2.kaggle Demo2.read_one
           Demo2.no_float "data/x.csv" (Some "sig_id"%string) false
           (ReadData.DataFrame
              {| columns := ["cp_type"; "c-0"];
                 frame_rows := [[CStr "trt_cp"; CNum (of_nat 1)]] |})).
  reflexivity.
Defined.

Lemma read_data_drops_ignored_witness :
  exists df0,
    Demo2.read_one "data/x.csv" = Ok df0 /\
    In "sig_id"%string (columns df0).
Proof.
  destruct (read_data_drops_ignored Demo2.one_file Demo2.kaggle Demo2.read_one
              Demo2.no_float "data/x.csv" "sig_id" false
              {| columns := ["cp_type"; "c-0"];
                 frame_rows := [[CStr "trt_cp"; CNum (of_nat 1)]] |})
    as [_ [df0 [Hread [Hin _]]]].
  - reflexivity.
  - exists df0. split; [exact Hread|exact Hin].
Defined.

Lemma read_data_missing_ignored_witness :
  Demo2.read_demo "data/x.csv" (Some "nope"%string) true = Err KeyError.
Proof.
  apply (read_data_missing_ignored Demo2.one_file Demo2.kaggle Demo2.read_one
           Demo2.no_float "data/x.csv" "nope" true Demo2.csv_with_id).
  - reflexivity.
  - intros [Hc|[Hc|[Hc|[]]]]; discriminate Hc.
Defined.

Lemma y250_entries (i j : nat) :
  (i < shape0 Demo2.y250)%nat -> (j < shape1 Demo2.y250)%nat ->
  item Demo2.y250 i j = of_bool (Demo2.y250_bit i j).
Proof. reflexivity. Qed.

Lemma fit_mask_by_count_witness :
  exists mask,
    Classifier._freqs unit nat (Demo.dkc_fit Demo.dkc_init Demo2.X250 Demo2.y250).1
    = Some mask /\
    mask !! 0%nat = Some (Fin 0) /\
    mask !! 1%nat = Some (Fin (Q2Qc (3 # 250))) /\
    mask !! 2%nat = Some (Fin 0).
Proof.
  destruct (fit_mask_by_count Demo.keras_fit Demo.dkc_init Demo2.X250
              Demo2.y250 Demo2.y250_bit) as [mask [Hmask Hj]].
  - cbn. lia.
  - reflexivity.
  - exact y250_entries.
  - exists mask. split; [exact Hmask|].
    rewrite (Hj 0%nat), (Hj 1%nat), (Hj 2%nat) by (cbn; lia).
    repeat split; decide_by_compute.
Defined.

Lemma fit_then_predict_proba_witness :
  exists out,
    (Demo.dkc_predict_proba
       (Demo.dkc_fit Demo.dkc_init Demo2.X250 Demo2.y250).1 Demo2.X250).2
    = Ok out /\
    shape0 out = 250%nat /\ shape1 out = 3%nat.
Proof.
  destruct (fit_then_predict_proba Demo.keras_fit Demo.keras_predict_proba
              Demo.dkc_init Demo2.X250 Demo2.y250 Demo2.X250
              {| shape0 := 250; shape1 := 3; item _ _ := Fin (Q2Qc (6 # 10)) |}
              Demo2.y250_bit) as [out [Hout [H0 [H1 _]]]].
  - cbn. lia.
  - reflexivity.
  - exact y250_entries.
  - vm_compute. reflexivity.
  - cbn. lia.
  - exists out. split; [exact Hout|]. split; [exact H0|exact H1].
Defined.

Lemma blend_between_witness :
  exists out o,
    (Demo.dkc_predict_proba Demo.dkc_fitted Demo.X4).2 = Ok out /\
    item out 0 1 = Fin o /\
    (0 <= o /\ o <= 1).
Proof.
  destruct (blend_between Demo.keras_predict_proba Demo.dkc_fitted Demo.X4
              {| shape0 := 4; shape1 := 2; item _ _ := Fin (Q2Qc (6 # 10)) |}
              (default [] (Classifier._freqs unit nat Demo.dkc_fitted))
              0 1 (Q2Qc (1 # 4)) (Q2Qc (6 # 10)))
    as [out [o [Hout [Ho [_ [_ Hunit]]]]]].
  - vm_compute. reflexivity.
  - vm_compute. reflexivity.
  - vm_compute. lia.
  - decide_by_compute.
  - reflexivity.
  - reflexivity.
  - exists out, o. split; [exact Hout|]. split; [exact Ho|].
    apply Hunit; discriminate.
Defined.

Lemma predict_proba_narrow_output_witness :
  Classifier.predict_proba unit nat (fun _ _ => Ok Demo2.narrow)
    Demo.dkc_fitted Demo.X4
  = (Demo.dkc_fitted, Err IndexError).
Proof.
  apply (predict_proba_narrow_output (fun _ _ => Ok Demo2.narrow)
           Demo.dkc_fitted Demo.X4 Demo2.narrow
           (default [] (Classifier._freqs unit nat Demo.dkc_fitted))
           1 (Fin (Q2Qc (1 # 4)))).
  - vm_compute. reflexivity.
  - reflexivity.
  - decide_by_compute.
  - reflexivity.
  - cbn. lia.
Defined.

Lemma fit_without_rows_witness :
  (Demo.dkc_fit Demo.dkc_fitted Demo2.X0 Demo.y4).2 = Err ZeroDivisionError /\
  Classifier._freqs unit nat (Demo.dkc_fit Demo.dkc_fitted Demo2.X0 Demo.y4).1
  = Classifier._freqs unit nat Demo.dkc_fitted.
Proof.
  destruct (fit_without_rows Demo.keras_fit Demo.dkc_fitted Demo2.X0 Demo.y4)
    as [Herr [Hmask _]].
  - reflexivity.
  - split; [exact Herr|exact Hmask].
Defined.

Lemma cv_fit_fail_fast_witness :
  (Demo.toy_cv_fit Demo.clf06 Demo2.bad_fold).2 = Err IndexError /\
  length (Demo.toy_cv_fit Demo.clf06 Demo2.bad_fold).1 = 8%nat.
Proof.
  unfold Demo.toy_cv_fit.
  rewrite (cv_fit_fail_fast Demo.count_loss Sklearn.KFold
             Demo.float32_max Float64.add Float32.div Demo.clf06
             Demo.features Demo.y4 Demo.test_features (Some Demo2.bad_fold) 5
             Demo2.bad_fold
             [([2%Z; 3%Z], [0%Z; 1%Z])] ([0%Z; 9%Z], [2%Z; 3%Z])
             [([0%Z], [1%Z])]).
  - split; vm_compute; reflexivity.
  - reflexivity.
  - reflexivity.
  - vm_compute. reflexivity.
  - vm_compute. reflexivity.
Defined.

Lemma fit_rejects_misaligned_witness :
  Train.fit Demo.count_loss Demo.float32_max Demo.clf06 Demo.features
    Demo2.y3 Demo.test_features []
  = ([], Err IndexError).
Proof.
  apply (fit_rejects_misaligned Demo.count_loss Demo.float32_max Demo.clf06
           Demo.features Demo2.y3 Demo.test_features).
  right. cbn. lia.
Defined.

Lemma fit_rows_aligned_witness :
  exists Xtr ytr rest,
    (Demo.toy_fit Demo.clf06).1 = EvFit Xtr ytr :: rest /\
    rows Xtr = map (fun p => nth p (rows Demo.features) []) [0; 2; 3]%nat /\
    shape0 ytr = 3%nat.
Proof.
  destruct (fit_rows_aligned Demo.count_loss Demo.float32_max Demo.clf06
              Demo.features Demo.y4 Demo.test_features)
    as (Xtr & ytr & rest & Ht & Hrows & Hs0 & _).
  - vm_compute. reflexivity.
  - exists Xtr, ytr, rest. split; [exact Ht|]. split; [exact Hrows|exact Hs0].
Defined.

Lemma cv_fit_rows_aligned_witness :
  exists Xtr ytr pre post,
    (Demo.toy_cv_fit Demo.clf06 Demo.two_fold).1
    = pre ++ [EvPrint 1; EvFit Xtr ytr] ++ post /\
    rows Xtr = map (fun p => nth p (rows Demo.features) []) [0%nat] /\
    shape0 ytr = 1%nat.
Proof.
  assert (is_ok (Demo.toy_cv_fit Demo.clf06 Demo.two_fold).2 = true) as Hok
    by (vm_compute; reflexivity).
  destruct (cv_fit_rows_aligned Demo.count_loss Sklearn.KFold
              Demo.float32_max Float64.add Float32.div Demo.clf06
              Demo.features Demo.y4 Demo.test_features (Some Demo.two_fold) 5
              Demo.two_fold eq_refl Hok eq_refl
              1%nat [0%Z; 1%Z] [2%Z; 3%Z] eq_refl)
    as (ks & Xtr & ytr & pre & post & Hks & Ht & Hrows & Hs0 & _).
  injection Hks as <-.
  exists Xtr, ytr, pre, post. split; [exact Ht|]. split; [exact Hrows|exact Hs0].
Defined.
